(** * LSH: a line-oriented command interpreter (src/main.c)

    A shallow embedding of [main.c] and the properties of its
    read / tokenize / dispatch / launch loop.

    - C strings are lists of characters; the end of the list and the
      character NUL both terminate a string, as they do for [strtok] and
      [strcmp].
    - [int] values are in [Z]; the two [bufsize += ...] additions, the only
      arithmetic that can leave the range of [int], are guarded.
    - The operating system is a record of oracles [OS]; the state of the
      process and of its terminal is a record [World].
    - A C function is a function from a [World] to an [outcome]: it returns,
      or the process leaves through [exit], or through [execvp], or blocks
      in [waitpid].
    - [w_stdout] and [w_stderr] hold what was written in the order of the
      calls; the buffers of stdio are not modelled.
    - The interpreter installs no signal handler and waits only for the
      child it has just forked: [waitpid] reports a state change of that
      child or does not return. *)

From Stdlib Require Import List ZArith Ascii String Bool Arith Lia ZifyNat.
Import ListNotations.
Local Open Scope Z_scope.

(** ** Characters and C strings *)

Definition cstring := list ascii.

Definition lit (s : string) : cstring := list_ascii_of_string s.

Definition NUL : ascii := "000"%char.
Definition newline : ascii := "010"%char.
Definition dquote : ascii := "034"%char.

Definition is_nul (c : ascii) : bool := Ascii.eqb c NUL.

(** The string a [char *] denotes: the characters before the first NUL. *)
Fixpoint c_str (buf : list ascii) : cstring :=
  match buf with
  | [] => []
  | c :: buf' => if is_nul c then [] else c :: c_str buf'
  end.

(** [#define LSH_TOK_DELIM " \t\r\n\a"] *)
Definition LSH_TOK_DELIM : list ascii :=
  [" "%char; "009"%char; "013"%char; "010"%char; "007"%char].

Definition is_delim (c : ascii) : bool :=
  existsb (Ascii.eqb c) LSH_TOK_DELIM.

(** [s + strspn(s, delim)]: the string after its leading delimiters. *)
Fixpoint skip_delims (s : list ascii) : list ascii :=
  match s with
  | [] => []
  | c :: s' =>
      if is_nul c then []
      else if is_delim c then skip_delims s'
      else s
  end.

(** [strcspn] and what follows it: the longest delimiter-free prefix of [s]
    and the rest of [s], which starts at the delimiter that stopped the scan
    ([[]] when the scan reached the terminator). *)
Fixpoint scan_token (s : list ascii) : cstring * list ascii :=
  match s with
  | [] => ([], [])
  | c :: s' =>
      if is_nul c then ([], [])
      else if is_delim c then ([], s)
      else let (tok, rest) := scan_token s' in (c :: tok, rest)
  end.

(** [strtok(s, LSH_TOK_DELIM)], with the saved position made explicit: the
    next token and the position [strtok(NULL, ...)] resumes from, or [None]
    for the [NULL] result.  The delimiter that ends the token is overwritten
    by NUL and the scan resumes after it. *)
Definition strtok (s : list ascii) : option (cstring * list ascii) :=
  match skip_delims s with
  | [] => None
  | s1 =>
      let (tok, rest) := scan_token s1 in
      Some (tok, match rest with [] => [] | _ :: after => after end)
  end.

(** [strcmp]: the difference of the first two characters that differ, the
    terminator counting as 0. *)
Definition char_code (c : ascii) : Z := Z.of_N (N_of_ascii c).

Fixpoint strcmp (a b : list ascii) : Z :=
  match a, b with
  | [], [] => 0
  | [], c :: _ => 0 - char_code c
  | c :: _, [] => char_code c
  | c :: a', d :: b' =>
      if Ascii.eqb c d then (if is_nul c then 0 else strcmp a' b')
      else char_code c - char_code d
  end.

(** ** Constants of the C library *)

Definition EXIT_SUCCESS : Z := 0.
Definition EXIT_FAILURE : Z := 1.
Definition INT_MAX : Z := 2147483647.

(** [<sys/wait.h>]: the wait status macros, as Linux defines them. *)
Definition WEXITSTATUS (status : Z) : Z := Z.shiftr (Z.land status 65280) 8.
Definition WTERMSIG (status : Z) : Z := Z.land status 127.
Definition WIFEXITED (status : Z) : bool := WTERMSIG status =? 0.
(** [((signed char) ((status & 0x7f) + 1) >> 1) > 0] *)
Definition WIFSIGNALED (status : Z) : bool :=
  let v := Z.land status 127 + 1 in
  let sc := if v <? 128 then v else v - 256 in
  Z.shiftr sc 1 >? 0.
Definition WIFSTOPPED (status : Z) : bool := Z.land status 255 =? 127.
Definition WSTOPSIG (status : Z) : Z := WEXITSTATUS status.
Definition W_EXITCODE (ret sig : Z) : Z := Z.lor (Z.shiftl ret 8) sig.
Definition W_STOPCODE (sig : Z) : Z := Z.lor (Z.shiftl sig 8) 127.

(** ** The process and its environment *)

Record World : Type := mkWorld {
  w_stdin    : list ascii;            (* input not read yet; then end of file *)
  w_stdout   : list ascii;            (* what was written to stdout *)
  w_stderr   : list ascii;            (* what was written to stderr *)
  w_cwd      : cstring;               (* working directory of the process *)
  w_errno    : Z;
  w_nalloc   : nat;                   (* allocation requests made so far *)
  w_nfork    : nat;                   (* fork calls made so far *)
  w_children : list (Z * list Z)      (* children not reaped yet, each with
                                         the state changes it will report *)
}.

Record OS : Type := mkOS {
  (* does the next malloc / realloc succeed *)
  os_alloc    : World -> bool;
  (* chdir: an errno, or the new working directory *)
  os_chdir    : World -> cstring -> Z + cstring;
  (* fork: an errno, or the pid of the child *)
  os_fork     : World -> Z + positive;
  (* execvp: None when the image is loaded, Some errno when it is not *)
  os_execvp   : World -> cstring -> list cstring -> option Z;
  (* the wait statuses a loaded program reports, one per state change *)
  os_run      : World -> cstring -> list cstring -> list Z;
  os_strerror : Z -> list ascii
}.

Definition set_stdin (i : list ascii) (w : World) : World :=
  mkWorld i (w_stdout w) (w_stderr w) (w_cwd w) (w_errno w)
          (w_nalloc w) (w_nfork w) (w_children w).
Definition put_stdout (s : list ascii) (w : World) : World :=
  mkWorld (w_stdin w) (w_stdout w ++ s) (w_stderr w) (w_cwd w) (w_errno w)
          (w_nalloc w) (w_nfork w) (w_children w).
Definition put_stderr (s : list ascii) (w : World) : World :=
  mkWorld (w_stdin w) (w_stdout w) (w_stderr w ++ s) (w_cwd w) (w_errno w)
          (w_nalloc w) (w_nfork w) (w_children w).
Definition set_stderr (s : list ascii) (w : World) : World :=
  mkWorld (w_stdin w) (w_stdout w) s (w_cwd w) (w_errno w)
          (w_nalloc w) (w_nfork w) (w_children w).
Definition set_cwd (d : cstring) (w : World) : World :=
  mkWorld (w_stdin w) (w_stdout w) (w_stderr w) d (w_errno w)
          (w_nalloc w) (w_nfork w) (w_children w).
Definition set_errno (e : Z) (w : World) : World :=
  mkWorld (w_stdin w) (w_stdout w) (w_stderr w) (w_cwd w) e
          (w_nalloc w) (w_nfork w) (w_children w).
Definition count_alloc (w : World) : World :=
  mkWorld (w_stdin w) (w_stdout w) (w_stderr w) (w_cwd w) (w_errno w)
          (S (w_nalloc w)) (w_nfork w) (w_children w).
Definition count_fork (w : World) : World :=
  mkWorld (w_stdin w) (w_stdout w) (w_stderr w) (w_cwd w) (w_errno w)
          (w_nalloc w) (S (w_nfork w)) (w_children w).
Definition set_children (cs : list (Z * list Z)) (w : World) : World :=
  mkWorld (w_stdin w) (w_stdout w) (w_stderr w) (w_cwd w) (w_errno w)
          (w_nalloc w) (w_nfork w) cs.

(** How a call of a C function ends. *)
Inductive outcome (A : Type) : Type :=
| Returned (a : A) (w : World)                 (* the function returns [a] *)
| Exited (code : Z) (w : World)                (* the process called [exit] *)
| Execed (prog : cstring) (argv : list cstring) (w : World)
                                               (* [execvp] loaded an image *)
| Blocked (w : World)                          (* [waitpid] never returns *)
| Undefined                                    (* undefined behaviour *)
| OutOfFuel.

Arguments Returned {A} a w.
Arguments Exited {A} code w.
Arguments Execed {A} prog argv w.
Arguments Blocked {A} w.
Arguments Undefined {A}.
Arguments OutOfFuel {A}.

Definition M (A : Type) : Type := World -> outcome A.

Definition ret {A} (a : A) : M A := fun w => Returned a w.

Definition bind {A B} (m : M A) (k : A -> M B) : M B :=
  fun w =>
    match m w with
    | Returned a w' => k a w'
    | Exited c w' => Exited c w'
    | Execed p a w' => Execed p a w'
    | Blocked w' => Blocked w'
    | Undefined => Undefined
    | OutOfFuel => OutOfFuel
    end.

Declare Scope shell_scope.
Delimit Scope shell_scope with shell.
Notation "x <- m ;; k" := (bind m (fun x => k))
  (at level 61, m at next level, right associativity) : shell_scope.
Notation "m ;; k" := (bind m (fun _ => k))
  (at level 61, right associativity) : shell_scope.
Local Open Scope shell_scope.

(** ** stdio, stdlib and the system calls *)

Definition printf (s : list ascii) : M unit :=
  fun w => Returned tt (put_stdout s w).

Definition fprintf_stderr (s : list ascii) : M unit :=
  fun w => Returned tt (put_stderr s w).

Definition exit (code : Z) {A} : M A := fun w => Exited code w.

(** [waitpid] updates the list of children. *)
Fixpoint find_child (pid : Z) (cs : list (Z * list Z)) : option (list Z) :=
  match cs with
  | [] => None
  | (p, reports) :: cs' => if p =? pid then Some reports else find_child pid cs'
  end.

Fixpoint reap_child (pid : Z) (cs : list (Z * list Z)) : list (Z * list Z) :=
  match cs with
  | [] => []
  | (p, reports) :: cs' =>
      if p =? pid then cs' else (p, reports) :: reap_child pid cs'
  end.

Fixpoint set_reports (pid : Z) (rs : list Z) (cs : list (Z * list Z))
  : list (Z * list Z) :=
  match cs with
  | [] => []
  | (p, reports) :: cs' =>
      if p =? pid then (p, rs) :: cs' else (p, reports) :: set_reports pid rs cs'
  end.

(** ** The interpreter *)

Section Shell.

Variable os : OS.

(** [malloc] and [realloc] as the interpreter uses them: only whether the
    request succeeds matters. *)
Definition alloc : M bool :=
  fun w => Returned (os_alloc os w) (count_alloc w).

(** [perror(prefix)] *)
Definition perror (prefix : list ascii) : M unit :=
  fun w =>
    Returned tt
      (put_stderr (prefix ++ lit ": " ++ os_strerror os (w_errno w) ++ [newline]) w).

Definition chdir (path : cstring) : M Z :=
  fun w =>
    match os_chdir os w path with
    | inl e => Returned (-1) (set_errno e w)
    | inr d => Returned 0 (set_cwd d w)
    end.

(** [execvp(file, argv)] returns only when it fails. *)
Definition execvp (file : option cstring) (argv : list cstring) : M Z :=
  fun w =>
    match file with
    | None => Undefined
    | Some prog =>
        match os_execvp os w prog argv with
        | None => Execed prog argv w
        | Some e => Returned (-1) (set_errno e w)
        end
    end.

(** *** Builtins *)

Definition builtin_str : list cstring := [lit "cd"; lit "help"; lit "exit"].

(** The number of entries of [builtin_str]: its size over the size of one. *)
Definition lsh_num_builtins : nat := List.length builtin_str.

Definition cd_usage : list ascii :=
  lit "lsh: expected argument to " ++ [dquote] ++ lit "cd" ++ [dquote; newline].

(** [args] is the vector of a command: [args[0]] is its name and [args[1]]
    an argument or the terminator. *)
Definition lsh_cd (args : list cstring) : M Z :=
  match args with
  | [] => fun _ => Undefined        (* args[1] lies after the terminator *)
  | [_] =>                          (* args[1] == NULL *)
      fprintf_stderr cd_usage ;;
      ret 1
  | _ :: dir :: _ =>
      r <- chdir dir ;;
      (if negb (r =? 0) then perror (lit "lsh") else ret tt) ;;
      ret 1
  end.

(** The [for] loop of [lsh_help]: [todo] iterations are left, [i] is the
    index of the next one. *)
Fixpoint help_names (todo i : nat) : M unit :=
  match todo with
  | O => ret tt
  | S todo' =>
      match nth_error builtin_str i with
      | None => fun _ => Undefined
      | Some name =>
          printf (lit "  " ++ name ++ [newline]) ;;
          help_names todo' (S i)
      end
  end.

Definition lsh_help (args : list cstring) : M Z :=
  printf (lit "Stephen Brennan's LSH" ++ [newline]) ;;
  printf (lit "Type program names and arguments, and hit enter." ++ [newline]) ;;
  printf (lit "The following are built in:" ++ [newline]) ;;
  help_names lsh_num_builtins 0 ;;
  printf (lit "Use the man command for information on other programs." ++ [newline]) ;;
  ret 1.

Definition lsh_exit (args : list cstring) : M Z := ret 0.

Definition builtin_func : list (list cstring -> M Z) :=
  [lsh_cd; lsh_help; lsh_exit].

(** *** Launching a program *)

(** The [do ... while] of the parent: each iteration is one [waitpid(pid,
    &status, WUNTRACED)], which stores the next state change of the child;
    when the child has none left, [waitpid] does not return.  A child that
    has exited or was killed is reaped by the call that reports it.  The
    result is the last [status]. *)
Fixpoint wait_loop (pid : Z) (reports : list Z) : M Z :=
  match reports with
  | [] => fun w => Blocked (set_children (set_reports pid [] (w_children w)) w)
  | status :: later =>
      if negb (WIFEXITED status) && negb (WIFSIGNALED status)
      then wait_loop pid later
      else fun w => Returned status (set_children (reap_child pid (w_children w)) w)
  end.

(** [lsh_launch] from the return of [fork] on, in the process where [fork]
    returned [pid]. *)
Definition lsh_launch_from (pid : Z) (args : list cstring) : M Z :=
  if pid =? 0 then
    (* Child process *)
    r <- execvp (nth_error args 0) args ;;
    (if r =? -1 then perror (lit "lsh") else ret tt) ;;
    exit EXIT_FAILURE
  else if pid <? 0 then
    (* Error forking *)
    perror (lit "lsh") ;;
    ret 1
  else
    (* Parent process *)
    (fun w =>
       match find_child pid (w_children w) with
       | None => Undefined   (* waitpid fails and [status] is never written *)
       | Some reports => wait_loop pid reports w
       end) ;;
    ret 1.

(** What the parent can observe of a child that went on as [child]: what it
    wrote to the shared stderr, and the state changes it will report. *)
Definition spawn (pid : Z) (child : outcome Z) (w : World) : World :=
  match child with
  | Exited code wc =>
      set_children ((pid, [W_EXITCODE code 0]) :: w_children w)
        (set_stderr (w_stderr wc) w)
  | Execed prog argv wc =>
      set_children ((pid, os_run os wc prog argv) :: w_children w) w
  | _ => w
  end.

(** [lsh_launch] in the interpreter: [fork] fails, or it starts a child,
    which is a copy of the interpreter in which [fork] returned 0. *)
Definition lsh_launch (args : list cstring) : M Z :=
  fun w =>
    let w0 := count_fork w in
    match os_fork os w with
    | inl e => lsh_launch_from (-1) args (set_errno e w0)
    | inr p =>
        let pid := Z.pos p in
        lsh_launch_from pid args (spawn pid (lsh_launch_from 0 args w0) w0)
    end.

(** *** Dispatch *)

(** The [for] loop of [lsh_execute], then the call of [lsh_launch]. *)
Fixpoint scan_builtins (todo i : nat) (args : list cstring) (arg0 : cstring)
  : M Z :=
  match todo with
  | O => lsh_launch args
  | S todo' =>
      match nth_error builtin_str i with
      | None => fun _ => Undefined
      | Some name =>
          if strcmp arg0 name =? 0 then
            match nth_error builtin_func i with
            | None => fun _ => Undefined
            | Some handler => handler args
            end
          else scan_builtins todo' (S i) args arg0
      end
  end.

Definition lsh_execute (args : list cstring) : M Z :=
  match args with
  | [] => ret 1          (* An empty command was entered. *)
  | arg0 :: _ => scan_builtins lsh_num_builtins 0 args arg0
  end.

(** *** Reading a line *)

Definition LSH_RL_BUFSIZE : Z := 1024.

Definition alloc_error : list ascii := lit "lsh: allocation error" ++ [newline].

(** The [while (1)] of [lsh_read_line]; [input] is what [getchar] has not
    read yet, [buffer] the [position] characters stored so far.  The
    characters returned are those before the terminator that is stored in
    place of the newline. *)
Fixpoint read_chars (input buffer : list ascii) (position bufsize : Z)
  : M (list ascii) :=
  match input with
  | [] => exit EXIT_SUCCESS                       (* c == EOF *)
  | c :: input' =>
      (fun w => Returned tt (set_stdin input' w)) ;;
      if Ascii.eqb c newline then ret buffer
      else
        let buffer := buffer ++ [c] in
        let position := position + 1 in
        (* If we have exceeded the buffer, reallocate. *)
        if position >=? bufsize then
          if bufsize + LSH_RL_BUFSIZE >? INT_MAX then fun _ => Undefined
          else
            ok <- alloc ;;
            if negb ok then
              fprintf_stderr alloc_error ;;
              exit EXIT_FAILURE
            else read_chars input' buffer position (bufsize + LSH_RL_BUFSIZE)
        else read_chars input' buffer position bufsize
  end.

(** [lsh_read_line] as it is compiled when [LSH_USE_STD_GETLINE] is not
    defined, which nothing in [main.c] does. *)
Definition lsh_read_line : M (list ascii) :=
  ok <- alloc ;;
  if negb ok then
    fprintf_stderr alloc_error ;;
    exit EXIT_FAILURE
  else fun w => read_chars (w_stdin w) [] 0 LSH_RL_BUFSIZE w.

(** *** Splitting a line *)

Definition LSH_TOK_BUFSIZE : Z := 64.

(** The [while (token != NULL)] of [lsh_split_line]; [token] is the last
    result of [strtok], with the position it saved.  Every iteration takes
    at least one character of the line, which bounds [fuel]. *)
Fixpoint split_tokens (fuel : nat) (token : option (cstring * list ascii))
    (tokens : list cstring) (position bufsize : Z) : M (list cstring) :=
  match token with
  | None => ret tokens                            (* tokens[position] = NULL *)
  | Some (tok, saved) =>
      match fuel with
      | O => fun _ => OutOfFuel
      | S fuel' =>
          let tokens := tokens ++ [tok] in
          let position := position + 1 in
          if position >=? bufsize then
            if bufsize + LSH_TOK_BUFSIZE >? INT_MAX then fun _ => Undefined
            else
              ok <- alloc ;;
              if negb ok then
                fprintf_stderr alloc_error ;;
                exit EXIT_FAILURE
              else
                split_tokens fuel' (strtok saved) tokens position
                             (bufsize + LSH_TOK_BUFSIZE)
          else split_tokens fuel' (strtok saved) tokens position bufsize
      end
  end.

Definition lsh_split_line (line : list ascii) : M (list cstring) :=
  ok <- alloc ;;
  if negb ok then
    fprintf_stderr alloc_error ;;
    exit EXIT_FAILURE
  else split_tokens (List.length line) (strtok line) [] 0 LSH_TOK_BUFSIZE.

(** *** The loop *)

(** The [do ... while (status)] of [lsh_loop], for at most [fuel]
    iterations. *)
Fixpoint lsh_loop (fuel : nat) : M unit :=
  match fuel with
  | O => fun _ => OutOfFuel
  | S fuel' =>
      printf (lit "> ") ;;
      line <- lsh_read_line ;;
      args <- lsh_split_line line ;;
      status <- lsh_execute args ;;
      if negb (status =? 0) then lsh_loop fuel' else ret tt
  end.

Definition main (fuel : nat) : M Z :=
  lsh_loop fuel ;;
  ret EXIT_SUCCESS.

(** Every iteration that ends has read a newline: one more iteration than
    there are characters to read is enough. *)
Definition lsh_main : M Z :=
  fun w => main (S (List.length (w_stdin w))) w.

(** *** Texts the interpreter writes *)

(** What [perror("lsh")] writes when [errno] is [e]. *)
Definition lsh_perror_text (e : Z) : list ascii :=
  lit "lsh" ++ lit ": " ++ os_strerror os e ++ [newline].

(** The text of [lsh_help]. *)
Definition help_banner : list ascii :=
  lit "Stephen Brennan's LSH" ++ [newline] ++
  lit "Type program names and arguments, and hit enter." ++ [newline] ++
  lit "The following are built in:" ++ [newline].

Definition help_footer : list ascii :=
  lit "Use the man command for information on other programs." ++ [newline].

Definition help_line (name : cstring) : list ascii :=
  lit "  " ++ name ++ [newline].

(** What the child of [lsh_launch] reports to the parent. *)
Definition child_reports (arg0 : cstring) (rest : list cstring) (w : World)
  : list Z :=
  match os_execvp os w arg0 (arg0 :: rest) with
  | None => os_run os w arg0 (arg0 :: rest)
  | Some _ => [W_EXITCODE EXIT_FAILURE 0]
  end.

(** What the child of [lsh_launch] leaves on the terminal. *)
Definition after_child (arg0 : cstring) (rest : list cstring) (w : World)
  : World :=
  match os_execvp os w arg0 (arg0 :: rest) with
  | None => w
  | Some e => put_stderr (lsh_perror_text e) w
  end.

(** How a call can end in the interpreter: not through [execvp], and through
    [exit] only at the end of the input, with [EXIT_SUCCESS], or after an
    allocation has failed, with [EXIT_FAILURE]. *)
Definition ends_well {A} (o : outcome A) : Prop :=
  match o with
  | Exited code w' =>
      code = EXIT_SUCCESS /\ w_stdin w' = [] \/
      code = EXIT_FAILURE /\ (exists w0, os_alloc os w0 = false) /\
      exists w1, w' = put_stderr alloc_error w1
  | Execed _ _ _ => False
  | _ => True
  end.

End Shell.

(** ** What splitting a line means *)

(** [split_of s toks]: [toks] are the maximal runs of characters of [s]
    that are not delimiters, in the order of [s].  Either [s] is made of
    delimiters only, or it is a run of delimiters [ds], a token [tok] that
    stops at the end of [s] or before a delimiter, and a rest that is split
    the same way. *)
Inductive split_of : list ascii -> list cstring -> Prop :=
| split_done : forall ds,
    Forall (fun c => is_delim c = true) ds ->
    split_of ds []
| split_token : forall ds tok rest toks,
    Forall (fun c => is_delim c = true) ds ->
    tok <> [] ->
    Forall (fun c => is_delim c = false) tok ->
    (rest = [] \/ exists d rest', rest = d :: rest' /\ is_delim d = true) ->
    split_of rest toks ->
    split_of (ds ++ tok ++ rest) (tok :: toks).

(** The same, computed: [runs s] cuts [s] into its maximal runs of
    characters of one kind, delimiters ([true]) or others ([false]);
    [split_on_delims s] drops the runs of delimiters. *)
Fixpoint runs (s : list ascii) : list (bool * list ascii) :=
  match s with
  | [] => []
  | c :: s' =>
      match runs s' with
      | (kind, run) :: more =>
          if Bool.eqb kind (is_delim c) then (kind, c :: run) :: more
          else (is_delim c, [c]) :: (kind, run) :: more
      | [] => [(is_delim c, [c])]
      end
  end.

Definition split_on_delims (s : list ascii) : list cstring :=
  map snd (filter (fun r => negb (fst r)) (runs s)).

(** The world after the interpreter has read its input down to [input] and
    made [k] more allocations, everything else being as in [w]. *)
Definition after_reading (input : list ascii) (k : nat) (w : World) : World :=
  mkWorld input (w_stdout w) (w_stderr w) (w_cwd w) (w_errno w)
          (k + w_nalloc w) (w_nfork w) (w_children w).

(** A wait status on which the loop of [lsh_launch] goes on. *)
Definition waits_on (s : Z) : Prop := WIFEXITED s = false /\ WIFSIGNALED s = false.

(** ** Sessions *)

(** The tokens of a command written back as a line, one space between
    two. *)
Fixpoint unwords (toks : list cstring) : list ascii :=
  match toks with
  | [] => []
  | [tok] => tok
  | tok :: more => tok ++ " "%char :: unwords more
  end.

(** A token as [lsh_split_line] makes them: not empty, without delimiter and
    without NUL. *)
Definition is_token (tok : cstring) : Prop :=
  tok <> [] /\
  Forall (fun c => is_delim c = false) tok /\
  Forall (fun c => is_nul c = false) tok.

(** [w'] comes after [w] in a session: input was read from the front,
    output was added at the end, and the children are those of [w]. *)
Definition comes_after (w w' : World) : Prop :=
  (exists read, w_stdin w = read ++ w_stdin w') /\
  (exists out, w_stdout w' = w_stdout w ++ out) /\
  (exists err, w_stderr w' = w_stderr w ++ err) /\
  w_children w' = w_children w.

(** An outcome that, when the call returns or exits, leaves a world that
    comes after [w]. *)
Definition stays_in_session {A} (w : World) (o : outcome A) : Prop :=
  match o with
  | Returned _ w' | Exited _ w' => comes_after w w'
  | _ => True
  end.

(** ** A sample environment *)

Definition ENOENT : Z := 2.
Definition EAGAIN : Z := 11.
Definition SIGTERM : Z := 15.
Definition SIGSTOP : Z := 19.

(** A system with or without memory left and with or without room for one
    more process, where [/tmp] is the one directory to change to; [ls] exits
    with 0, [false] with 1, [sleep] is stopped once and then killed, and no
    other program is found. *)
Definition sample_os (memory processes : bool) : OS :=
  mkOS (fun _ => memory)
       (fun _ path =>
          if strcmp path (lit "/tmp") =? 0 then inr (lit "/tmp") else inl ENOENT)
       (fun _ => if processes then inr 42%positive else inl EAGAIN)
       (fun _ prog _ =>
          if (strcmp prog (lit "ls") =? 0) || (strcmp prog (lit "false") =? 0)
             || (strcmp prog (lit "sleep") =? 0)
          then None else Some ENOENT)
       (fun _ prog _ =>
          if strcmp prog (lit "ls") =? 0 then [W_EXITCODE 0 0]
          else if strcmp prog (lit "false") =? 0 then [W_EXITCODE 1 0]
          else [W_STOPCODE SIGSTOP; W_EXITCODE 0 SIGTERM])
       (fun e =>
          if e =? ENOENT then lit "No such file or directory"
          else lit "Resource temporarily unavailable").

(** A fresh session in [/home] with [input] to read. *)
Definition sample_world (input : list ascii) : World :=
  mkWorld input [] [] (lit "/home") 0 0 0 [].

(** The same with a child [42] that will report [reports]. *)
Definition waiting_world (reports : list Z) : World :=
  mkWorld [] [] [] (lit "/home") 0 0 1 [(42, reports)].

(** A system where every program is found and is stopped once, never to
    go on or end. *)
Definition stuck_os : OS :=
  mkOS (fun _ => true)
       (fun _ _ => inl ENOENT)
       (fun _ => inr 42%positive)
       (fun _ _ _ => None)
       (fun _ _ _ => [W_STOPCODE SIGSTOP])
       (fun _ => lit "No such file or directory").

(** ** Properties *)

Section Properties.

Variable os : OS.

Lemma char_code_inj : forall c d, char_code c = char_code d -> c = d.
Proof.
  unfold char_code. intros c d H.
  apply N2Z.inj in H.
  rewrite <- (ascii_N_embedding c), <- (ascii_N_embedding d).
  now rewrite H.
Qed.

Lemma char_code_nul : forall c, char_code c = 0 -> is_nul c = true.
Proof.
  intros c H. unfold is_nul. apply Ascii.eqb_eq.
  apply char_code_inj. exact H.
Qed.

Lemma is_nul_code : forall c, is_nul c = true -> char_code c = 0.
Proof.
  intros c H. apply Ascii.eqb_eq in H. subst c. reflexivity.
Qed.

(** [strcmp] is 0 exactly when the two strings are the same. *)
Lemma strcmp_eq0 : forall a b, strcmp a b = 0 <-> c_str a = c_str b.
Proof.
  induction a as [|c a IH]; intros [|d b]; simpl.
  - tauto.
  - destruct (is_nul d) eqn:Hd.
    + apply is_nul_code in Hd. rewrite Hd. tauto.
    + split; [|discriminate].
      intros H. assert (char_code d = 0) by lia.
      apply char_code_nul in H0. congruence.
  - destruct (is_nul c) eqn:Hc.
    + apply is_nul_code in Hc. tauto.
    + split; [|discriminate].
      intros H. apply char_code_nul in H. congruence.
  - destruct (Ascii.eqb c d) eqn:Hcd.
    + apply Ascii.eqb_eq in Hcd. subst d.
      destruct (is_nul c); [tauto|].
      rewrite IH. split; [congruence|]. intros H. now injection H.
    + apply Ascii.eqb_neq in Hcd. split.
      * intros H. exfalso. apply Hcd. apply char_code_inj. lia.
      * destruct (is_nul c) eqn:Hc, (is_nul d) eqn:Hd; intros H.
        -- apply Ascii.eqb_eq in Hc, Hd. congruence.
        -- discriminate.
        -- discriminate.
        -- exfalso. apply Hcd. now injection H.
Qed.

(** *** The builtins *)

Lemma put_stdout_app : forall a b w,
  put_stdout b (put_stdout a w) = put_stdout (a ++ b) w.
Proof.
  intros a b w. unfold put_stdout. simpl. now rewrite app_assoc.
Qed.

(** C5.  [lsh_cd] on a command without [args[1]] adds the usage message
    to what stderr holds and changes nothing else; [lsh_cd] whose [chdir]
    fails adds the error of the system to what stderr holds and leaves the
    working directory as it was; when [chdir] succeeds the working directory
    is the new one and nothing is written.  In every case [lsh_cd] returns
    1, the value on which the loop continues. *)
Theorem lsh_cd_failures_are_reported :
  forall (arg0 : cstring) (rest : list cstring) (w : World),
    (nth_error (arg0 :: rest) 1 = None ->
       lsh_cd os (arg0 :: rest) w = Returned 1 (put_stderr cd_usage w) /\
       w_cwd (put_stderr cd_usage w) = w_cwd w /\
       w_stdout (put_stderr cd_usage w) = w_stdout w /\
       w_stderr (put_stderr cd_usage w)
         = w_stderr w ++ lit "lsh: expected argument to " ++ [dquote]
             ++ lit "cd" ++ [dquote; newline]) /\
    (forall dir e,
       nth_error (arg0 :: rest) 1 = Some dir -> os_chdir os w dir = inl e ->
       lsh_cd os (arg0 :: rest) w
         = Returned 1 (put_stderr (lsh_perror_text os e) (set_errno e w)) /\
       w_cwd (put_stderr (lsh_perror_text os e) (set_errno e w)) = w_cwd w /\
       w_stdout (put_stderr (lsh_perror_text os e) (set_errno e w))
         = w_stdout w /\
       w_stderr (put_stderr (lsh_perror_text os e) (set_errno e w))
         = w_stderr w ++ lit "lsh: " ++ os_strerror os e ++ [newline]) /\
    (forall dir d,
       nth_error (arg0 :: rest) 1 = Some dir -> os_chdir os w dir = inr d ->
       lsh_cd os (arg0 :: rest) w = Returned 1 (set_cwd d w) /\
       w_cwd (set_cwd d w) = d /\
       w_stdout (set_cwd d w) = w_stdout w /\
       w_stderr (set_cwd d w) = w_stderr w) /\
    (exists w', lsh_cd os (arg0 :: rest) w = Returned 1 w').
Proof.
  intros arg0 [|dir' extra] w; simpl nth_error; unfold lsh_cd.
  - split; [|split; [|split]]; try discriminate.
    + intros _. auto.
    + eexists. reflexivity.
  - split; [|split; [|split]]; try discriminate.
    + intros dir e H E. injection H as <-. unfold bind, chdir. rewrite E.
      auto.
    + intros dir d H E. injection H as <-. unfold bind, chdir. rewrite E.
      auto.
    + unfold bind, chdir.
      destruct (os_chdir os w dir'); simpl; eexists; reflexivity.
Qed.

(** C10.  With two arguments or more, [lsh_cd] does what it does with the
    first one alone: it calls [chdir] on it, writes nothing but the error of
    a failed [chdir], never the usage message, and returns 1. *)
Theorem lsh_cd_ignores_extra_arguments :
  forall (arg0 dir : cstring) (extra : list cstring) (w : World),
    lsh_cd os (arg0 :: dir :: extra) w = lsh_cd os [arg0; dir] w /\
    lsh_cd os (arg0 :: dir :: extra) w =
      match os_chdir os w dir with
      | inr d => Returned 1 (set_cwd d w)
      | inl e => Returned 1 (put_stderr (lsh_perror_text os e) (set_errno e w))
      end.
Proof.
  intros arg0 dir extra w. split; [reflexivity|].
  unfold lsh_cd. simpl. unfold bind, chdir.
  now destruct (os_chdir os w dir).
Qed.

Lemma help_names_run : forall (names : list cstring) (i : nat) (w : World),
  skipn i builtin_str = names ->
  help_names (List.length names) i w
    = Returned tt (put_stdout (flat_map help_line names) w).
Proof.
  induction names as [|name names IH]; intros i w H; simpl.
  - unfold ret, put_stdout. rewrite app_nil_r. now destruct w.
  - assert (Hn : nth_error builtin_str i = Some name).
    { rewrite <- (firstn_skipn i builtin_str) at 1.
      rewrite H. rewrite nth_error_app2 by (rewrite length_firstn; lia).
      rewrite length_firstn.
      assert (Hlen : (i < List.length builtin_str)%nat).
      { destruct (Nat.lt_ge_cases i (List.length builtin_str)) as [Hl|Hl]; [exact Hl|].
        rewrite skipn_all2 in H by exact Hl. discriminate. }
      rewrite Nat.min_l by lia. now rewrite Nat.sub_diag. }
    rewrite Hn. unfold bind, printf.
    rewrite IH.
    + rewrite put_stdout_app. reflexivity.
    + change (S i) with (1 + i)%nat. rewrite <- skipn_skipn. now rewrite H.
Qed.

Lemma lsh_help_run : forall args w,
  lsh_help args w
    = Returned 1
        (put_stdout (help_banner ++ flat_map help_line builtin_str ++ help_footer) w).
Proof.
  intros args w.
  unfold lsh_help, bind, printf, lsh_num_builtins.
  rewrite (help_names_run builtin_str 0) by reflexivity.
  unfold ret. rewrite !put_stdout_app. reflexivity.
Qed.

Lemma lsh_cd_inv : forall arg0 rest w,
  exists w',
    lsh_cd os (arg0 :: rest) w = Returned 1 w' /\ w_stdin w' = w_stdin w.
Proof.
  intros arg0 [|dir extra] w; unfold lsh_cd.
  - eexists. split; reflexivity.
  - unfold bind, chdir.
    destruct (os_chdir os w dir); simpl; eexists; split; reflexivity.
Qed.

(** C7.  Whatever its arguments, [lsh_help] returns 1 after it has added
    to what stdout holds, and written nowhere else, the three lines of the
    banner, then the names of [builtin_str] in the order of the table, one
    to a line (after two spaces), which are cd, help and exit, then a
    closing line. *)
Theorem lsh_help_prints_the_builtins : forall (args : list cstring) (w : World),
  lsh_help args w
    = Returned 1
        (put_stdout (help_banner ++ flat_map help_line builtin_str ++ help_footer) w)
  /\ flat_map help_line builtin_str
     = lit "  cd" ++ [newline] ++ lit "  help" ++ [newline] ++
       lit "  exit" ++ [newline]
  /\ builtin_str = [lit "cd"; lit "help"; lit "exit"]
  /\ w_stdout (put_stdout (help_banner ++ flat_map help_line builtin_str
                             ++ help_footer) w)
     = w_stdout w
       ++ lit "Stephen Brennan's LSH" ++ [newline]
       ++ lit "Type program names and arguments, and hit enter." ++ [newline]
       ++ lit "The following are built in:" ++ [newline]
       ++ lit "  cd" ++ [newline]
       ++ lit "  help" ++ [newline]
       ++ lit "  exit" ++ [newline]
       ++ lit "Use the man command for information on other programs."
       ++ [newline]
  /\ w_stderr (put_stdout (help_banner ++ flat_map help_line builtin_str
                             ++ help_footer) w)
     = w_stderr w
  /\ w_cwd (put_stdout (help_banner ++ flat_map help_line builtin_str
                          ++ help_footer) w)
     = w_cwd w
  /\ exists text w',
       lsh_help args w = Returned 1 w' /\
       w_stdout w' = w_stdout w ++ text /\
       text <> [].
Proof.
  intros args w. split; [apply lsh_help_run|].
  split; [reflexivity|]. split; [reflexivity|].
  split; [reflexivity|]. split; [reflexivity|]. split; [reflexivity|].
  exists (help_banner ++ flat_map help_line builtin_str ++ help_footer).
  eexists. split; [apply lsh_help_run|]. split; [reflexivity|discriminate].
Qed.

(** *** Wait statuses *)

Lemma land_255_127 : forall s, Z.land s 255 = 127 -> Z.land s 127 = 127.
Proof.
  intros s H.
  change 127 with (Z.land 255 127) at 1.
  rewrite Z.land_assoc, H. reflexivity.
Qed.

Lemma stopped_is_not_terminal : forall s,
  WIFSTOPPED s = true -> WIFEXITED s = false /\ WIFSIGNALED s = false.
Proof.
  unfold WIFSTOPPED, WIFEXITED, WIFSIGNALED, WTERMSIG.
  intros s H. apply Z.eqb_eq in H. apply land_255_127 in H.
  rewrite H. split; reflexivity.
Qed.

Lemma exit_code_shifted : forall code, W_EXITCODE code 0 = code * 256.
Proof.
  intros code. unfold W_EXITCODE.
  rewrite Z.lor_0_r, Z.shiftl_mul_pow2 by lia. reflexivity.
Qed.

Lemma exited_status : forall code,
  WIFEXITED (W_EXITCODE code 0) = true /\ WIFSIGNALED (W_EXITCODE code 0) = false.
Proof.
  intros code. rewrite exit_code_shifted.
  unfold WIFEXITED, WIFSIGNALED, WTERMSIG.
  assert (H : Z.land (code * 256) 127 = 0).
  { change 127 with (Z.ones 7). rewrite Z.land_ones by lia.
    change 256 with (2 * 2 ^ 7). rewrite Z.mul_assoc.
    apply Z.mod_mul. lia. }
  rewrite H. split; reflexivity.
Qed.

Lemma exit_code_captured : forall code,
  0 <= code < 256 -> WEXITSTATUS (W_EXITCODE code 0) = code.
Proof.
  intros code Hc. unfold WEXITSTATUS, W_EXITCODE.
  rewrite Z.lor_0_r.
  change 65280 with (Z.shiftl 255 8).
  rewrite <- Z.shiftl_land.
  rewrite Z.shiftr_shiftl_l by lia. rewrite Z.sub_diag, Z.shiftl_0_r.
  change 255 with (Z.ones 8). rewrite Z.land_ones by lia.
  apply Z.mod_small. change (2 ^ 8) with 256. lia.
Qed.


Lemma stop_code_stopped : forall sig,
  0 <= sig < 256 -> WIFSTOPPED (W_STOPCODE sig) = true.
Proof.
  intros sig Hs. unfold WIFSTOPPED, W_STOPCODE.
  apply Z.eqb_eq.
  rewrite Z.land_lor_distr_l.
  assert (H : Z.land (Z.shiftl sig 8) 255 = 0).
  { rewrite Z.shiftl_mul_pow2 by lia.
    change 255 with (Z.ones 8). rewrite Z.land_ones by lia.
    apply Z.mod_mul. lia. }
  rewrite H. reflexivity.
Qed.

(** *** The wait loop *)

Lemma reap_child_head : forall pid reports cs,
  reap_child pid ((pid, reports) :: cs) = cs.
Proof. intros. simpl. now rewrite Z.eqb_refl. Qed.

Lemma wait_loop_step : forall pid s later,
  wait_loop pid (s :: later) =
    if negb (WIFEXITED s) && negb (WIFSIGNALED s)
    then wait_loop pid later
    else fun w => Returned s (set_children (reap_child pid (w_children w)) w).
Proof. reflexivity. Qed.

Lemma wait_loop_skips : forall pid stops rest w,
  Forall waits_on stops ->
  wait_loop pid (stops ++ rest) w = wait_loop pid rest w.
Proof.
  induction stops as [|s stops IH]; intros rest w H; [reflexivity|].
  inversion H as [|? ? [He Hs] Hrest]; subst.
  simpl app. rewrite wait_loop_step, He, Hs. simpl. now apply IH.
Qed.

Lemma wait_loop_ends : forall pid s later w,
  WIFEXITED s = true \/ WIFSIGNALED s = true ->
  wait_loop pid (s :: later) w
    = Returned s (set_children (reap_child pid (w_children w)) w).
Proof.
  intros pid s later w H. rewrite wait_loop_step.
  destruct H as [H|H]; rewrite H; [reflexivity|].
  now destruct (WIFEXITED s).
Qed.

Lemma wait_loop_inv : forall pid reports w,
  (exists s stops later,
      reports = stops ++ s :: later /\ Forall waits_on stops /\
      (WIFEXITED s = true \/ WIFSIGNALED s = true) /\
      wait_loop pid reports w
        = Returned s (set_children (reap_child pid (w_children w)) w))
  \/ (Forall waits_on reports /\
      wait_loop pid reports w
        = Blocked (set_children (set_reports pid [] (w_children w)) w)).
Proof.
  induction reports as [|s later IH]; intros w.
  - right. split; [constructor|reflexivity].
  - destruct (WIFEXITED s) eqn:He; [|destruct (WIFSIGNALED s) eqn:Hs].
    + left. exists s, [], later. repeat split; auto.
      apply wait_loop_ends. auto.
    + left. exists s, [], later. repeat split; auto.
      apply wait_loop_ends. auto.
    + rewrite wait_loop_step, He, Hs. simpl.
      destruct (IH w) as [(s' & stops & later' & E & F & T & R)|[F R]].
      * left. exists s', (s :: stops), later'. subst later.
        repeat split; auto. constructor; [split|]; auto.
      * right. split; [constructor; [split|]|]; auto.
Qed.

(** C4.  In the parent ([0 < pid]) [lsh_launch] is the wait loop followed by
    [return 1].  The loop ends only on a status that is exited or signalled,
    the first such report of the child, every report before it having been
    waited on; reports of a stopped child are among those: after any number
    of them the loop still takes the next report, and with nothing but them
    it never ends.  The status of a child that exited with [code] holds
    [code], which [lsh_launch] then drops. *)
Theorem wait_ends_only_on_exit_or_signal :
  forall (pid : Z) (args : list cstring) (reports : list Z) (w : World),
    0 < pid ->
    find_child pid (w_children w) = Some reports ->
    lsh_launch_from os pid args w = (wait_loop pid reports ;; ret 1) w /\
    (forall s w',
        wait_loop pid reports w = Returned s w' ->
        (WIFEXITED s = true \/ WIFSIGNALED s = true) /\
        exists stops later,
          reports = stops ++ s :: later /\ Forall waits_on stops) /\
    (forall stops s later,
        reports = stops ++ s :: later ->
        Forall (fun r => WIFSTOPPED r = true) stops ->
        WIFEXITED s = true \/ WIFSIGNALED s = true ->
        wait_loop pid reports w
          = Returned s (set_children (reap_child pid (w_children w)) w)) /\
    (Forall (fun r => WIFSTOPPED r = true) reports ->
        wait_loop pid reports w
          = Blocked (set_children (set_reports pid [] (w_children w)) w)) /\
    (forall s, WIFSTOPPED s = true -> WIFEXITED s = false /\ WIFSIGNALED s = false) /\
    (forall sig, 0 <= sig < 256 -> WIFSTOPPED (W_STOPCODE sig) = true) /\
    (forall code,
        0 <= code < 256 ->
        WIFEXITED (W_EXITCODE code 0) = true /\
        WEXITSTATUS (W_EXITCODE code 0) = code).
Proof.
  intros pid args reports w Hpid Hfind.
  assert (Hstop : forall l, Forall (fun r => WIFSTOPPED r = true) l ->
                            Forall waits_on l).
  { intros l H. eapply Forall_impl; [|exact H].
    intros r Hr. now apply stopped_is_not_terminal. }
  split; [|split; [|split; [|split; [|split; [|split]]]]].
  - unfold lsh_launch_from.
    assert (E0 : (pid =? 0) = false) by (apply Z.eqb_neq; lia).
    assert (E1 : (pid <? 0) = false) by (apply Z.ltb_ge; lia).
    rewrite E0, E1. unfold bind. now rewrite Hfind.
  - intros s w' H.
    destruct (wait_loop_inv pid reports w)
      as [(s' & stops & later & E & F & T & R)|[F R]];
      rewrite R in H; [|discriminate].
    injection H as -> _. split; [exact T|]. now exists stops, later.
  - intros stops s later E F T. subst reports.
    rewrite wait_loop_skips by now apply Hstop.
    now apply wait_loop_ends.
  - intros F.
    destruct (wait_loop_inv pid reports w)
      as [(s' & stops & later & E & _ & T & _)|[_ R]]; [|exact R].
    exfalso. subst reports.
    apply Forall_app in F. destruct F as [_ F].
    inversion F as [|? ? Hs _]; subst.
    apply stopped_is_not_terminal in Hs. destruct Hs, T; congruence.
  - apply stopped_is_not_terminal.
  - apply stop_code_stopped.
  - intros code Hc. split; [apply exited_status|now apply exit_code_captured].
Qed.

(** *** Launching *)

Lemma launch_in_child : forall arg0 rest w,
  lsh_launch_from os 0 (arg0 :: rest) w =
    match os_execvp os w arg0 (arg0 :: rest) with
    | None => Execed arg0 (arg0 :: rest) w
    | Some e =>
        Exited EXIT_FAILURE (put_stderr (lsh_perror_text os e) (set_errno e w))
    end.
Proof.
  intros arg0 rest w. unfold lsh_launch_from. simpl.
  unfold bind, execvp.
  now destruct (os_execvp os w arg0 (arg0 :: rest)).
Qed.

Lemma launch_in_parent : forall p args reports w,
  find_child (Z.pos p) (w_children w) = Some reports ->
  lsh_launch_from os (Z.pos p) args w = (wait_loop (Z.pos p) reports ;; ret 1) w.
Proof.
  intros p args reports w H. unfold lsh_launch_from. simpl.
  unfold bind. now rewrite H.
Qed.

Lemma launch_fork_error : forall args w,
  lsh_launch_from os (-1) args w
    = Returned 1 (put_stderr (lsh_perror_text os (w_errno w)) w).
Proof. reflexivity. Qed.

Lemma launch_forked : forall arg0 rest p w,
  os_fork os w = inr p ->
  lsh_launch os (arg0 :: rest) w =
    (wait_loop (Z.pos p) (child_reports os arg0 rest (count_fork w)) ;; ret 1)
      (set_children
         ((Z.pos p, child_reports os arg0 rest (count_fork w)) :: w_children w)
         (after_child os arg0 rest (count_fork w))).
Proof.
  intros arg0 rest p w Hf. unfold lsh_launch. rewrite Hf.
  rewrite launch_in_child. unfold child_reports, after_child.
  destruct (os_execvp os (count_fork w) arg0 (arg0 :: rest)) as [e|]; simpl spawn.
  - erewrite launch_in_parent; [reflexivity|]. simpl. now rewrite Pos.eqb_refl.
  - erewrite launch_in_parent; [|simpl; now rewrite Pos.eqb_refl].
    now destruct w.
Qed.

Lemma launch_forked_ends : forall arg0 rest p w stops s later,
  os_fork os w = inr p ->
  child_reports os arg0 rest (count_fork w) = stops ++ s :: later ->
  Forall waits_on stops ->
  WIFEXITED s = true \/ WIFSIGNALED s = true ->
  lsh_launch os (arg0 :: rest) w
    = Returned 1 (after_child os arg0 rest (count_fork w)).
Proof.
  intros arg0 rest p w stops s later Hf Hr F T.
  rewrite (launch_forked arg0 rest p w Hf). rewrite Hr.
  unfold bind. rewrite wait_loop_skips by exact F.
  rewrite wait_loop_ends by exact T.
  unfold ret. f_equal. cbn [w_children set_children]. rewrite reap_child_head.
  unfold after_child.
  destruct (os_execvp os (count_fork w) arg0 (arg0 :: rest)); now destruct w.
Qed.

Lemma lsh_launch_inv : forall arg0 rest w,
  (exists w', lsh_launch os (arg0 :: rest) w = Returned 1 w' /\
              w_stdin w' = w_stdin w /\ w_children w' = w_children w)
  \/ (exists w', lsh_launch os (arg0 :: rest) w = Blocked w').
Proof.
  intros arg0 rest w.
  destruct (os_fork os w) as [e|p] eqn:Hf.
  - left. unfold lsh_launch. rewrite Hf. rewrite launch_fork_error.
    eexists. split; [reflexivity|]. split; reflexivity.
  - rewrite (launch_forked arg0 rest p w Hf). unfold bind.
    match goal with |- context [wait_loop ?pid ?r ?w1] =>
      destruct (wait_loop_inv pid r w1)
        as [(s & stops & later & E & F & T & R)|[F R]]; rewrite R end.
    + left. eexists. split; [reflexivity|].
      cbn [w_children set_children w_stdin]. rewrite reap_child_head.
      unfold after_child.
      destruct (os_execvp os (count_fork w) arg0 (arg0 :: rest)); split; reflexivity.
    + right. eexists. reflexivity.
Qed.


(** *** Dispatch *)

Lemma lsh_execute_unfold : forall arg0 rest w,
  lsh_execute os (arg0 :: rest) w =
    if strcmp arg0 (lit "cd") =? 0 then lsh_cd os (arg0 :: rest) w
    else if strcmp arg0 (lit "help") =? 0 then lsh_help (arg0 :: rest) w
    else if strcmp arg0 (lit "exit") =? 0 then lsh_exit (arg0 :: rest) w
    else lsh_launch os (arg0 :: rest) w.
Proof.
  intros arg0 rest w.
  unfold lsh_execute, lsh_num_builtins.
  change (List.length builtin_str) with 3%nat.
  cbn [scan_builtins]. unfold builtin_str, builtin_func. cbn [nth_error].
  destruct (strcmp arg0 (lit "cd") =? 0); [reflexivity|].
  destruct (strcmp arg0 (lit "help") =? 0); [reflexivity|].
  destruct (strcmp arg0 (lit "exit") =? 0); reflexivity.
Qed.

Lemma strcmp_eqb : forall a (name : cstring),
  c_str name = name ->
  (strcmp a name =? 0) = true <-> c_str a = name.
Proof.
  intros a name Hn. rewrite Z.eqb_eq, strcmp_eq0. now rewrite Hn.
Qed.

Lemma strcmp_neqb : forall a (name : cstring),
  c_str name = name ->
  c_str a <> name -> (strcmp a name =? 0) = false.
Proof.
  intros a name Hn H. destruct (strcmp a name =? 0) eqn:E; [|reflexivity].
  apply strcmp_eqb in E; [contradiction|exact Hn].
Qed.

(** The loop of [lsh_execute] calls the handler listed at the index where
    it found the name. *)
Lemma lsh_execute_builtin : forall i name handler arg0 rest w,
  nth_error builtin_str i = Some name ->
  nth_error (builtin_func os) i = Some handler ->
  c_str arg0 = name ->
  lsh_execute os (arg0 :: rest) w = handler (arg0 :: rest) w /\
  (handler = lsh_cd os /\ name = lit "cd" \/
   handler = lsh_help /\ name = lit "help" \/
   handler = lsh_exit /\ name = lit "exit").
Proof.
  intros i name handler arg0 rest w Hn Hh Ha.
  rewrite lsh_execute_unfold.
  destruct i as [|[|[|i]]]; simpl in Hn, Hh.
  + injection Hn as <-. injection Hh as <-.
    rewrite (proj2 (strcmp_eqb arg0 (lit "cd") eq_refl) Ha). auto.
  + injection Hn as <-. injection Hh as <-.
    rewrite (strcmp_neqb arg0 (lit "cd") eq_refl)
      by (rewrite Ha; discriminate).
    rewrite (proj2 (strcmp_eqb arg0 (lit "help") eq_refl) Ha). auto.
  + injection Hn as <-. injection Hh as <-.
    rewrite (strcmp_neqb arg0 (lit "cd") eq_refl)
      by (rewrite Ha; discriminate).
    rewrite (strcmp_neqb arg0 (lit "help") eq_refl)
      by (rewrite Ha; discriminate).
    rewrite (proj2 (strcmp_eqb arg0 (lit "exit") eq_refl) Ha). auto 6.
  + destruct i; discriminate.
Qed.

(** C1.  [lsh_execute] on the empty command returns 1 and changes nothing.
    On a command whose first token is the name at index [i] of
    [builtin_str], it is the call of the handler at index [i] of
    [builtin_func] on the whole command.  On a command whose first token is
    none of the names, it is the call of [lsh_launch] on the whole
    command. *)
Theorem lsh_execute_dispatches : forall (args : list cstring) (w : World),
  (args = [] -> lsh_execute os args w = Returned 1 w) /\
  (forall arg0 rest i name handler,
      args = arg0 :: rest ->
      nth_error builtin_str i = Some name ->
      nth_error (builtin_func os) i = Some handler ->
      c_str arg0 = name ->
      lsh_execute os args w = handler args w) /\
  (forall arg0 rest,
      args = arg0 :: rest ->
      ~ In (c_str arg0) builtin_str ->
      lsh_execute os args w = lsh_launch os args w).
Proof.
  intros args w. split; [|split].
  - intros ->. reflexivity.
  - intros arg0 rest i name handler -> Hn Hh Ha.
    now apply (lsh_execute_builtin i name).
  - intros arg0 rest -> Hnot.
    rewrite lsh_execute_unfold.
    rewrite !strcmp_neqb; try reflexivity;
      intros E; apply Hnot; rewrite E; simpl; auto.
Qed.

Lemma lsh_execute_inv : forall args w,
  (exists r w',
      lsh_execute os args w = Returned r w' /\
      w_stdin w' = w_stdin w /\
      (r = 1 \/
       r = 0 /\ w' = w /\
       exists arg0 rest, args = arg0 :: rest /\ c_str arg0 = lit "exit"))
  \/ (exists w', lsh_execute os args w = Blocked w').
Proof.
  intros [|arg0 rest] w.
  - left. exists 1, w. repeat split; auto.
  - rewrite lsh_execute_unfold.
    destruct (strcmp arg0 (lit "cd") =? 0).
    { left. destruct (lsh_cd_inv arg0 rest w) as (w' & R & I).
      exists 1, w'. auto. }
    destruct (strcmp arg0 (lit "help") =? 0).
    { left. rewrite lsh_help_run. eexists 1, _. repeat split; auto. }
    destruct (strcmp arg0 (lit "exit") =? 0) eqn:E.
    { left. exists 0, w. repeat split; auto. right. repeat split; auto.
      exists arg0, rest. split; [reflexivity|].
      now apply (strcmp_eqb arg0 (lit "exit") eq_refl). }
    destruct (lsh_launch_inv arg0 rest w) as [(w' & R & I & _)|[w' R]].
    + left. exists 1, w'. auto.
    + right. now exists w'.
Qed.

(** C9.  [builtin_str] and [builtin_func] both have 3 entries and
    [lsh_num_builtins] is 3, so every index below [lsh_num_builtins] has an
    entry in both tables; the loops of [lsh_execute] and of [lsh_help],
    which run over these indices, never read outside a table; and a first
    token that is the name at index [i] calls the handler at index [i]. *)
Theorem builtin_tables_are_aligned :
  List.length builtin_str = 3%nat /\
  List.length (builtin_func os) = 3%nat /\
  lsh_num_builtins = 3%nat /\
  (forall i : nat,
      (i < lsh_num_builtins)%nat ->
      exists name handler,
        nth_error builtin_str i = Some name /\
        nth_error (builtin_func os) i = Some handler) /\
  (forall args w, lsh_execute os args w <> Undefined) /\
  (forall args w, lsh_help args w <> Undefined) /\
  (forall i name handler arg0 rest w,
      nth_error builtin_str i = Some name ->
      nth_error (builtin_func os) i = Some handler ->
      c_str arg0 = name ->
      lsh_execute os (arg0 :: rest) w = handler (arg0 :: rest) w /\
      (handler = lsh_cd os /\ name = lit "cd" \/
       handler = lsh_help /\ name = lit "help" \/
       handler = lsh_exit /\ name = lit "exit")).
Proof.
  split; [reflexivity|]. split; [reflexivity|]. split; [reflexivity|].
  split; [|split; [|split]].
  - intros i Hi. change lsh_num_builtins with 3%nat in Hi.
    destruct i as [|[|[|i]]]; [| | |lia]; simpl; eauto.
  - intros args w H.
    destruct (lsh_execute_inv args w) as [(r & w' & R & _)|[w' R]];
      rewrite R in H; discriminate.
  - intros args w. rewrite lsh_help_run. discriminate.
  - apply lsh_execute_builtin.
Qed.

(** *** Worlds *)

Lemma after_reading_same : forall w, after_reading (w_stdin w) 0 w = w.
Proof. now intros []. Qed.

Lemma after_reading_again : forall i j k k0 w,
  after_reading i k (after_reading j k0 w) = after_reading i (k + k0) w.
Proof.
  intros. unfold after_reading. simpl. f_equal. lia.
Qed.

Lemma after_reading_alloc : forall i k w,
  count_alloc (after_reading i k w) = after_reading i (S k) w.
Proof. reflexivity. Qed.

Lemma set_stdin_again : forall i j k w,
  after_reading i k (set_stdin j w) = after_reading i k w.
Proof. reflexivity. Qed.

Lemma set_stdin_reading : forall i w, set_stdin i w = after_reading i 0 w.
Proof. reflexivity. Qed.

Lemma count_alloc_reading : forall w,
  count_alloc w = after_reading (w_stdin w) 1 w.
Proof. reflexivity. Qed.

(** *** The tokenizer *)

Lemma is_delim_not_nul : forall c, is_delim c = true -> is_nul c = false.
Proof.
  intros c H. unfold is_nul. destruct (Ascii.eqb c NUL) eqn:E; [|reflexivity].
  apply Ascii.eqb_eq in E. subst c. discriminate.
Qed.

Lemma c_str_no_nul : forall s,
  Forall (fun c => is_nul c = false) s -> c_str s = s.
Proof.
  induction 1 as [|c s Hc _ IH]; simpl; [reflexivity|].
  now rewrite Hc, IH.
Qed.

Lemma skip_delims_spec : forall s,
  exists ds,
    Forall (fun c => is_delim c = true) ds /\
    c_str s = ds ++ c_str (skip_delims s) /\
    (List.length (skip_delims s) <= List.length s)%nat /\
    (skip_delims s = [] \/
     exists c s', skip_delims s = c :: s' /\
                  is_nul c = false /\ is_delim c = false).
Proof.
  induction s as [|c s IH]; simpl.
  - exists []. repeat split; auto.
  - destruct (is_nul c) eqn:Hn.
    + exists []. repeat split; simpl; auto. lia.
    + destruct (is_delim c) eqn:Hd.
      * destruct IH as (ds & F & E & L & C).
        exists (c :: ds). repeat split; auto.
        simpl. now rewrite E.
      * exists []. repeat split; auto.
        -- simpl. now rewrite Hn.
        -- right. now exists c, s.
Qed.

Lemma scan_token_spec : forall s tok rest,
  scan_token s = (tok, rest) ->
  c_str s = tok ++ c_str rest /\
  Forall (fun c => is_delim c = false) tok /\
  Forall (fun c => is_nul c = false) tok /\
  (List.length tok + List.length rest <= List.length s)%nat /\
  (rest = [] \/
   exists d rest', rest = d :: rest' /\ is_delim d = true).
Proof.
  induction s as [|c s IH]; intros tok rest H; simpl in H.
  - injection H as <- <-. repeat split; auto.
  - destruct (is_nul c) eqn:Hn.
    + injection H as <- <-. simpl. rewrite Hn. repeat split; simpl; auto. lia.
    + destruct (is_delim c) eqn:Hd.
      * injection H as <- <-. repeat split; simpl; auto.
        right. now exists c, s.
      * destruct (scan_token s) as [tok' rest'] eqn:E.
        injection H as <- <-.
        destruct (IH tok' rest' eq_refl) as (Hs & Fd & Fn & L & C).
        simpl. rewrite Hn, Hs. repeat split; auto. simpl. lia.
Qed.

Lemma strtok_None : forall s,
  strtok s = None -> Forall (fun c => is_delim c = true) (c_str s).
Proof.
  intros s H. unfold strtok in H.
  destruct (skip_delims_spec s) as (ds & F & E & _ & _).
  destruct (skip_delims s) as [|c s1] eqn:Hs.
  - rewrite E. simpl. now rewrite app_nil_r.
  - destruct (scan_token (c :: s1)). discriminate.
Qed.

Lemma strtok_Some : forall s tok saved,
  strtok s = Some (tok, saved) ->
  exists ds rest,
    Forall (fun c => is_delim c = true) ds /\
    tok <> [] /\
    Forall (fun c => is_delim c = false) tok /\
    Forall (fun c => is_nul c = false) tok /\
    c_str s = ds ++ tok ++ rest /\
    (rest = [] /\ saved = [] \/
     exists d, is_delim d = true /\ rest = d :: c_str saved) /\
    (List.length saved < List.length s)%nat.
Proof.
  intros s tok saved H. unfold strtok in H.
  destruct (skip_delims_spec s) as (ds & F & E & L & C).
  destruct C as [C|(c & s1 & C & Hn & Hd)]; rewrite C in H; [discriminate|].
  destruct (scan_token (c :: s1)) as [tok' rest'] eqn:Hsc.
  injection H as <- <-.
  destruct (scan_token_spec (c :: s1) tok' rest' Hsc) as (Hs & Fd & Fn & L' & Cr).
  assert (Htok : tok' <> []).
  { simpl in Hsc. rewrite Hn, Hd in Hsc.
    destruct (scan_token s1). injection Hsc as <- _. discriminate. }
  assert (Hlen : (1 <= List.length tok')%nat).
  { destruct tok'; [contradiction|simpl; lia]. }
  exists ds, (c_str rest'). rewrite C in E, L. rewrite Hs in E.
  repeat split; auto.
  - destruct Cr as [->|(d & r & -> & Hdd)].
    + left. split; reflexivity.
    + right. exists d. split; [exact Hdd|].
      simpl. now rewrite (is_delim_not_nul d Hdd).
  - destruct rest' as [|d r]; simpl in *; lia.
Qed.

Lemma split_of_delim_cons : forall d s toks,
  is_delim d = true -> split_of s toks -> split_of (d :: s) toks.
Proof.
  intros d s toks Hd H. inversion H; subst.
  - apply split_done. now constructor.
  - change (d :: ds ++ tok ++ rest) with ((d :: ds) ++ tok ++ rest).
    apply split_token; auto.
Qed.

Lemma split_of_tokens : forall s toks,
  split_of s toks ->
  Forall (fun tok => tok <> [] /\ Forall (fun c => is_delim c = false) tok) toks.
Proof. induction 1; constructor; auto. Qed.

(** A line has one split only. *)
Lemma delims_then_plain : forall ds1 ds2 c1 c2 (r1 r2 : list ascii),
  Forall (fun c => is_delim c = true) ds1 ->
  Forall (fun c => is_delim c = true) ds2 ->
  is_delim c1 = false -> is_delim c2 = false ->
  ds1 ++ c1 :: r1 = ds2 ++ c2 :: r2 ->
  ds1 = ds2 /\ c1 :: r1 = c2 :: r2.
Proof.
  induction ds1 as [|a ds1 IH]; intros [|b ds2] c1 c2 r1 r2 F1 F2 H1 H2 E;
    simpl in E.
  - auto.
  - injection E as -> _. inversion F2; subst. congruence.
  - injection E as -> _. inversion F1; subst. congruence.
  - injection E as -> E. inversion F1; inversion F2; subst.
    destruct (IH ds2 c1 c2 r1 r2) as [-> ?]; auto.
Qed.

Lemma plain_then_stop : forall (t1 t2 r1 r2 : list ascii),
  Forall (fun c => is_delim c = false) t1 ->
  Forall (fun c => is_delim c = false) t2 ->
  (r1 = [] \/ exists d r, r1 = d :: r /\ is_delim d = true) ->
  (r2 = [] \/ exists d r, r2 = d :: r /\ is_delim d = true) ->
  t1 ++ r1 = t2 ++ r2 ->
  t1 = t2 /\ r1 = r2.
Proof.
  induction t1 as [|a t1 IH]; intros [|b t2] r1 r2 F1 F2 C1 C2 E; simpl in E.
  - auto.
  - exfalso. inversion F2 as [|? ? Hb _].
    destruct C1 as [C1|(d & r & C1 & Hd)]; rewrite C1 in E; [discriminate|].
    injection E as E1 _. congruence.
  - exfalso. inversion F1 as [|? ? Ha _].
    destruct C2 as [C2|(d & r & C2 & Hd)]; rewrite C2 in E; [discriminate|].
    injection E as E1 _. congruence.
  - injection E as E1 E.
    inversion F1 as [|? ? _ F1']. inversion F2 as [|? ? _ F2'].
    destruct (IH t2 r1 r2 F1' F2' C1 C2 E) as [E2 E3].
    split; congruence.
Qed.

Lemma split_of_unique : forall s toks1,
  split_of s toks1 -> forall toks2, split_of s toks2 -> toks1 = toks2.
Proof.
  induction 1 as [ds F|ds tok rest toks F Hne Fp C Hrest IH];
    intros toks2 H2.
  - inversion H2 as [|ds2 tok2 rest2 toks' F2 Hne2 Fp2 C2 H' E]; subst;
      [reflexivity|].
    exfalso. destruct tok2 as [|c t]; [contradiction|].
    inversion Fp2; subst.
    apply Forall_app in F. destruct F as [_ F].
    inversion F; subst. congruence.
  - inversion H2 as [ds2 F2 E|ds2 tok2 rest2 toks' F2 Hne2 Fp2 C2 H' E]; subst.
    + exfalso. destruct tok as [|c t]; [contradiction|].
      inversion Fp; subst.
      apply Forall_app in F2. destruct F2 as [_ F2].
      inversion F2; subst. congruence.
    + destruct tok as [|c t]; [contradiction|].
      destruct tok2 as [|c2 t2]; [contradiction|].
      inversion Fp; inversion Fp2; subst.
      simpl in E.
      destruct (delims_then_plain ds2 ds c2 c (t2 ++ rest2) (t ++ rest))
        as [-> E']; auto.
      change (c2 :: t2 ++ rest2) with ((c2 :: t2) ++ rest2) in E'.
      change (c :: t ++ rest) with ((c :: t) ++ rest) in E'.
      destruct (plain_then_stop (c2 :: t2) (c :: t) rest2 rest) as [E1 ->];
        auto.
      rewrite E1. f_equal. now apply IH.
Qed.

(** [split_on_delims] computes the split. *)
Lemma runs_head : forall s kind run more,
  runs s = (kind, run) :: more ->
  exists c s', s = c :: s' /\ is_delim c = kind.
Proof.
  intros [|c s] kind run more H; simpl in H; [discriminate|].
  exists c, s. split; [reflexivity|].
  destruct (runs s) as [|[k r] m].
  - now injection H as <- _ _.
  - destruct (Bool.eqb k (is_delim c)) eqn:E.
    + injection H as <- _ _. symmetry. now apply Bool.eqb_prop.
    + now injection H as <- _ _.
Qed.

Lemma runs_nil : forall s, runs s = [] -> s = [].
Proof.
  intros [|c s] H; [reflexivity|]. simpl in H.
  destruct (runs s) as [|[k r] m]; [discriminate|].
  destruct (Bool.eqb k (is_delim c)); discriminate.
Qed.

Lemma split_on_delims_delim : forall c s,
  is_delim c = true -> split_on_delims (c :: s) = split_on_delims s.
Proof.
  intros c s Hc. unfold split_on_delims. simpl. rewrite Hc.
  destruct (runs s) as [|[[|] r] m]; reflexivity.
Qed.

Lemma split_of_cons_inv : forall s tok toks,
  split_of s (tok :: toks) ->
  exists ds rest,
    s = ds ++ tok ++ rest /\
    Forall (fun c => is_delim c = true) ds /\
    tok <> [] /\
    Forall (fun c => is_delim c = false) tok /\
    (rest = [] \/ exists d rest', rest = d :: rest' /\ is_delim d = true) /\
    split_of rest toks.
Proof.
  intros s tok toks H. inversion H; subst. eauto 10.
Qed.

Lemma split_on_delims_splits : forall s, split_of s (split_on_delims s).
Proof.
  induction s as [|c s IH].
  - apply split_done. constructor.
  - destruct (is_delim c) eqn:Hc.
    + rewrite split_on_delims_delim by exact Hc.
      now apply split_of_delim_cons.
    + unfold split_on_delims in *. simpl. rewrite Hc.
      destruct (runs s) as [|[[|] r] m] eqn:Hr.
      * apply runs_nil in Hr. subst s. simpl.
        apply (split_token [] [c] [] []);
          [constructor|discriminate|now repeat constructor|now left|].
        apply split_done. constructor.
      * destruct (runs_head s true r m Hr) as (d & s' & -> & Hd).
        simpl in IH |- *.
        apply (split_token [] [c] (d :: s'));
          [constructor|discriminate|now repeat constructor| |exact IH].
        right. now exists d, s'.
      * destruct (runs_head s false r m Hr) as (d & s' & -> & Hd).
        simpl in IH |- *.
        destruct (split_of_cons_inv _ _ _ IH)
          as (ds & rest & E & F & Hne & Fp & C & Hrest).
        destruct ds as [|d' ds]; simpl in E.
        -- rewrite E.
           apply (split_token [] (c :: r) rest);
             [constructor|discriminate|now constructor|exact C|exact Hrest].
        -- injection E as E _. inversion F; subst. congruence.
Qed.

Lemma split_of_computed : forall s toks,
  split_of s toks -> toks = split_on_delims s.
Proof.
  intros s toks H.
  exact (split_of_unique s toks H _ (split_on_delims_splits s)).
Qed.

Lemma alloc_run : forall w, alloc os w = Returned (os_alloc os w) (count_alloc w).
Proof. reflexivity. Qed.

Lemma split_tokens_sound : forall fuel s acc pos buf w toks w',
  split_tokens os fuel (strtok s) acc pos buf w = Returned toks w' ->
  exists new, toks = acc ++ new /\ split_of (c_str s) new.
Proof.
  induction fuel as [|fuel IH]; intros s acc pos buf w toks w' H;
    destruct (strtok s) as [[tok saved]|] eqn:E; simpl in H;
    try discriminate.
  - injection H as <- _. exists []. rewrite app_nil_r.
    split; [reflexivity|]. apply split_done. now apply strtok_None.
  - assert (Hnext : exists pos' buf' w1,
               split_tokens os fuel (strtok saved) (acc ++ [tok]) pos' buf' w1
                 = Returned toks w').
    { destruct (pos + 1 >=? buf).
      - destruct (buf + LSH_TOK_BUFSIZE >? INT_MAX); [discriminate|].
        unfold bind in H. rewrite alloc_run in H.
        destruct (os_alloc os w); simpl in H; [|discriminate].
        eauto.
      - eauto. }
    destruct Hnext as (pos' & buf' & w1 & Hnext).
    destruct (IH _ _ _ _ _ _ _ Hnext) as (new & -> & Hsplit).
    exists (tok :: new). rewrite <- app_assoc. split; [reflexivity|].
    destruct (strtok_Some s tok saved E) as (ds & rest & F & Hne & Fp & _ & Hs & C & _).
    rewrite Hs. apply split_token; auto.
    + destruct C as [[-> _]|(d & Hd & ->)]; [now left|right; eauto].
    + destruct C as [[-> ->]|(d & Hd & ->)]; [exact Hsplit|].
      now apply split_of_delim_cons.
  - injection H as <- _. exists []. rewrite app_nil_r.
    split; [reflexivity|]. apply split_done. now apply strtok_None.
Qed.


Lemma split_tokens_total : forall fuel s acc pos buf w,
  (forall w0, os_alloc os w0 = true) ->
  (List.length s <= fuel)%nat ->
  pos + Z.of_nat (List.length s) + LSH_TOK_BUFSIZE <= INT_MAX ->
  exists toks k,
    split_tokens os fuel (strtok s) acc pos buf w
      = Returned toks (after_reading (w_stdin w) k w).
Proof.
  induction fuel as [|fuel IH]; intros s acc pos buf w Hmem Hfuel Hmax;
    destruct (strtok s) as [[tok saved]|] eqn:E; simpl;
    try (exists acc, 0%nat; now rewrite after_reading_same).
  - apply strtok_Some in E. destruct E as (_ & _ & _ & _ & _ & _ & _ & _ & L).
    lia.
  - apply strtok_Some in E. destruct E as (_ & _ & _ & _ & _ & _ & _ & _ & L).
    assert (Hmax' : pos + 1 + Z.of_nat (List.length saved) + LSH_TOK_BUFSIZE
                    <= INT_MAX) by lia.
    destruct (pos + 1 >=? buf) eqn:Hge.
    + apply Z.geb_le in Hge.
      assert (Hov : (buf + LSH_TOK_BUFSIZE >? INT_MAX) = false).
      { destruct (buf + LSH_TOK_BUFSIZE >? INT_MAX) eqn:Hgt; [|reflexivity].
        apply Z.gtb_lt in Hgt. lia. }
      rewrite Hov. unfold bind. rewrite alloc_run, Hmem. simpl.
      destruct (IH saved (acc ++ [tok]) (pos + 1) (buf + LSH_TOK_BUFSIZE)
                  (count_alloc w) Hmem) as (toks & k & R); [lia|lia|].
      rewrite R. exists toks, (k + 1)%nat.
      now rewrite count_alloc_reading, after_reading_again.
    + apply IH; auto. lia.
Qed.

Lemma split_tokens_inv : forall fuel token acc pos buf w,
  match split_tokens os fuel token acc pos buf w with
  | Returned _ w' =>
      w_stdin w' = w_stdin w /\ w_stdout w' = w_stdout w /\ w_cwd w' = w_cwd w
  | Exited code w' =>
      code = EXIT_FAILURE /\ (exists w0, os_alloc os w0 = false) /\
      exists w1, w' = put_stderr alloc_error w1
  | Execed _ _ _ | Blocked _ => False
  | Undefined | OutOfFuel => True
  end.
Proof.
  induction fuel as [|fuel IH]; intros [[tok saved]|] acc pos buf w; simpl;
    auto.
  destruct (pos + 1 >=? buf).
  - destruct (buf + LSH_TOK_BUFSIZE >? INT_MAX); [exact I|].
    unfold bind. rewrite alloc_run.
    destruct (os_alloc os w) eqn:Ha; simpl.
    + specialize (IH (strtok saved) (acc ++ [tok]) (pos + 1)
                     (buf + LSH_TOK_BUFSIZE) (count_alloc w)).
      destruct (split_tokens os fuel (strtok saved) (acc ++ [tok]) (pos + 1)
                  (buf + LSH_TOK_BUFSIZE) (count_alloc w)); auto.
    + split; [reflexivity|]. split; eauto.
  - apply IH.
Qed.

Lemma lsh_split_line_run : forall line w,
  os_alloc os w = true ->
  lsh_split_line os line w
    = split_tokens os (List.length line) (strtok line) [] 0 LSH_TOK_BUFSIZE
        (count_alloc w).
Proof.
  intros line w H. unfold lsh_split_line, bind. rewrite alloc_run, H.
  reflexivity.
Qed.

Lemma lsh_split_line_inv : forall line w,
  match lsh_split_line os line w with
  | Returned toks w' =>
      w_stdin w' = w_stdin w /\ w_stdout w' = w_stdout w /\
      w_cwd w' = w_cwd w /\ split_of (c_str line) toks
  | Exited code w' =>
      code = EXIT_FAILURE /\ (exists w0, os_alloc os w0 = false) /\
      exists w1, w' = put_stderr alloc_error w1
  | Execed _ _ _ | Blocked _ => False
  | Undefined | OutOfFuel => True
  end.
Proof.
  intros line w. destruct (os_alloc os w) eqn:Ha.
  - rewrite lsh_split_line_run by exact Ha.
    pose proof (split_tokens_inv (List.length line) (strtok line) [] 0
                  LSH_TOK_BUFSIZE (count_alloc w)) as Hinv.
    destruct (split_tokens os (List.length line) (strtok line) [] 0
                LSH_TOK_BUFSIZE (count_alloc w)) as [toks w'| | | | |] eqn:R;
      auto.
    destruct Hinv as (? & ? & ?). repeat split; auto.
    destruct (split_tokens_sound _ _ _ _ _ _ _ _ R) as (new & -> & Hs).
    exact Hs.
  - unfold lsh_split_line, bind. rewrite alloc_run, Ha. simpl.
    split; [reflexivity|]. split; eauto.
Qed.

(** C2.  What [lsh_split_line] returns is the split of the line, that is of
    the C string [line] points to, into its maximal runs of characters other
    than space, tab, carriage return, newline and bell: it is
    [split_on_delims] of the line and the only list [split_of] accepts, no
    token is empty or holds a delimiter, and a line of delimiters only, or
    an empty one, gives no token.  It does return, when no allocation fails
    and the line is shorter than [INT_MAX - 64].  The line [  ls   -la  ]
    gives [ls] and [-la].  The delimiters are these five characters and no
    other, and a line that holds one of each between six letters gives the
    six letters. *)
Theorem lsh_split_line_splits_on_delimiters :
  (forall (line : list ascii) (w : World),
      (forall toks w',
          lsh_split_line os line w = Returned toks w' ->
          toks = split_on_delims (c_str line) /\
          split_of (c_str line) toks /\
          (forall toks', split_of (c_str line) toks' -> toks' = toks) /\
          Forall (fun tok => tok <> [] /\
                             Forall (fun c => is_delim c = false) tok) toks /\
          (Forall (fun c => is_delim c = true) (c_str line) -> toks = []) /\
          (Forall (fun c => is_nul c = false) line -> c_str line = line)) /\
      ((forall w0, os_alloc os w0 = true) ->
       Z.of_nat (List.length line) + LSH_TOK_BUFSIZE <= INT_MAX ->
       exists k,
         lsh_split_line os line w
           = Returned (split_on_delims (c_str line))
               (after_reading (w_stdin w) k w))) /\
  (forall w : World,
      os_alloc os w = true ->
      lsh_split_line os (lit "  ls   -la  ") w
        = Returned [lit "ls"; lit "-la"] (count_alloc w)) /\
  (forall c : ascii,
      is_delim c = true <->
      c = " "%char \/ c = "009"%char \/ c = "013"%char \/
      c = "010"%char \/ c = "007"%char) /\
  (forall w : World,
      os_alloc os w = true ->
      lsh_split_line os
        ["a"%char; "013"%char; "b"%char; "010"%char; "c"%char; "009"%char;
         "d"%char; "007"%char; "e"%char; " "%char; "f"%char] w
        = Returned [lit "a"; lit "b"; lit "c"; lit "d"; lit "e"; lit "f"]
            (count_alloc w)).
Proof.
  split; [intros line w; split|split; [|split]].
  - intros toks w' H.
    pose proof (lsh_split_line_inv line w) as Hinv. rewrite H in Hinv.
    destruct Hinv as (_ & _ & _ & Hs).
    split; [now apply split_of_computed|]. split; [exact Hs|].
    split; [|split; [|split]].
    + intros toks' Hs'. exact (split_of_unique _ _ Hs' _ Hs).
    + exact (split_of_tokens _ _ Hs).
    + intros Hd. exact (split_of_unique _ _ Hs _ (split_done _ Hd)).
    + apply c_str_no_nul.
  - intros Hmem Hlen. rewrite lsh_split_line_run by apply Hmem.
    destruct (split_tokens_total (List.length line) line [] 0 LSH_TOK_BUFSIZE
                (count_alloc w) Hmem (le_n _) Hlen) as (toks & k & R).
    rewrite R.
    destruct (split_tokens_sound _ _ _ _ _ _ _ _ R) as (new & -> & Hnew).
    rewrite (split_of_computed _ _ Hnew).
    rewrite count_alloc_reading, after_reading_again. simpl app. eauto.
  - intros w Hw. rewrite lsh_split_line_run by exact Hw. reflexivity.
  - intros c. unfold is_delim, LSH_TOK_DELIM. cbn [existsb].
    rewrite !Bool.orb_true_iff, !Ascii.eqb_eq.
    intuition discriminate.
  - intros w Hw. rewrite lsh_split_line_run by exact Hw. reflexivity.
Qed.

(** *** Reading a line *)

Lemma read_chars_step : forall c input buffer pos buf w,
  Ascii.eqb c newline = false ->
  read_chars os (c :: input) buffer pos buf w =
    (if pos + 1 >=? buf then
       if buf + LSH_RL_BUFSIZE >? INT_MAX then fun _ => Undefined
       else
         ok <- alloc os ;;
         if negb ok then
           fprintf_stderr alloc_error ;;
           exit EXIT_FAILURE
         else read_chars os input (buffer ++ [c]) (pos + 1) (buf + LSH_RL_BUFSIZE)
     else read_chars os input (buffer ++ [c]) (pos + 1) buf)
      (set_stdin input w).
Proof.
  intros c input buffer pos buf w H. simpl. unfold bind at 1. now rewrite H.
Qed.

Lemma read_chars_grows : forall c input buffer pos buf w,
  (forall w0, os_alloc os w0 = true) ->
  Ascii.eqb c newline = false ->
  pos + 1 + LSH_RL_BUFSIZE <= INT_MAX ->
  exists buf' j,
    read_chars os (c :: input) buffer pos buf w
      = read_chars os input (buffer ++ [c]) (pos + 1) buf'
          (after_reading input j w).
Proof.
  intros c input buffer pos buf w Hmem Hc Hmax.
  rewrite read_chars_step by exact Hc.
  destruct (pos + 1 >=? buf) eqn:Hge.
  - apply Z.geb_le in Hge.
    assert (Hov : (buf + LSH_RL_BUFSIZE >? INT_MAX) = false).
    { destruct (buf + LSH_RL_BUFSIZE >? INT_MAX) eqn:Hgt; [|reflexivity].
      apply Z.gtb_lt in Hgt. lia. }
    rewrite Hov. unfold bind. rewrite alloc_run, Hmem. simpl.
    now exists (buf + LSH_RL_BUFSIZE), 1%nat.
  - now exists buf, 0%nat.
Qed.

Lemma not_newline : forall c l, ~ In newline (c :: l) ->
  Ascii.eqb c newline = false /\ ~ In newline l.
Proof.
  intros c l H. split.
  - apply Ascii.eqb_neq. intros ->. apply H. now left.
  - intros Hin. apply H. now right.
Qed.

Lemma read_chars_line : forall line more buffer pos buf w,
  (forall w0, os_alloc os w0 = true) ->
  ~ In newline line ->
  pos + Z.of_nat (List.length line) + LSH_RL_BUFSIZE <= INT_MAX ->
  exists k,
    read_chars os (line ++ newline :: more) buffer pos buf w
      = Returned (buffer ++ line) (after_reading more k w).
Proof.
  induction line as [|c line IH]; intros more buffer pos buf w Hmem Hnl Hmax.
  - exists 0%nat. simpl. unfold bind. rewrite app_nil_r. reflexivity.
  - apply not_newline in Hnl. destruct Hnl as [Hc Hnl].
    simpl List.length in Hmax.
    destruct (read_chars_grows c (line ++ newline :: more) buffer pos buf w
                Hmem Hc) as (buf' & j & R); [lia|].
    simpl app. rewrite R.
    destruct (IH more (buffer ++ [c]) (pos + 1) buf'
                 (after_reading (line ++ newline :: more) j w) Hmem Hnl)
      as [k Hk]; [lia|].
    rewrite Hk, after_reading_again, <- app_assoc. now exists (k + j)%nat.
Qed.

Lemma read_chars_eof : forall input buffer pos buf w,
  (forall w0, os_alloc os w0 = true) ->
  ~ In newline input ->
  pos + Z.of_nat (List.length input) + LSH_RL_BUFSIZE <= INT_MAX ->
  w_stdin w = input ->
  exists k,
    read_chars os input buffer pos buf w
      = Exited EXIT_SUCCESS (after_reading [] k w).
Proof.
  induction input as [|c input IH]; intros buffer pos buf w Hmem Hnl Hmax Hin.
  - exists 0%nat. simpl. unfold exit. rewrite <- Hin.
    now rewrite after_reading_same.
  - apply not_newline in Hnl. destruct Hnl as [Hc Hnl].
    simpl List.length in Hmax.
    destruct (read_chars_grows c input buffer pos buf w Hmem Hc)
      as (buf' & j & R); [lia|].
    rewrite R.
    destruct (IH (buffer ++ [c]) (pos + 1) buf' (after_reading input j w)
                 Hmem Hnl) as [k Hk]; [lia|reflexivity|].
    rewrite Hk, after_reading_again. now exists (k + j)%nat.
Qed.

Lemma read_chars_inv : forall input buffer pos buf w,
  w_stdin w = input ->
  ends_well os (read_chars os input buffer pos buf w) /\
  forall line w',
    read_chars os input buffer pos buf w = Returned line w' ->
    (List.length (w_stdin w') < List.length input)%nat.
Proof.
  induction input as [|c input IH]; intros buffer pos buf w Hin.
  - simpl. split; [left; auto|discriminate].
  - destruct (Ascii.eqb c newline) eqn:Hc.
    + simpl. unfold bind. rewrite Hc. simpl.
      split; [exact I|]. intros line w' H. injection H as _ <-. simpl. lia.
    + rewrite read_chars_step by exact Hc.
      assert (Hlt : forall b p o (w1 : World),
                 w_stdin w1 = input ->
                 ends_well os (read_chars os input b p o w1) /\
                 forall line w',
                   read_chars os input b p o w1 = Returned line w' ->
                   (List.length (w_stdin w') < List.length (c :: input))%nat).
      { intros b p o w1 H1. destruct (IH b p o w1 H1) as [Hw Hl].
        split; [exact Hw|]. intros line w' R. specialize (Hl line w' R).
        simpl. lia. }
      destruct (pos + 1 >=? buf).
      * destruct (buf + LSH_RL_BUFSIZE >? INT_MAX).
        { split; [exact I|discriminate]. }
        unfold bind. rewrite alloc_run.
        destruct (os_alloc os (set_stdin input w)) eqn:Ha; simpl.
        -- now apply Hlt.
        -- split; [|discriminate]. right. split; [reflexivity|]. split; eauto.
      * now apply Hlt.
Qed.

Lemma lsh_read_line_inv : forall w,
  ends_well os (lsh_read_line os w) /\
  forall line w',
    lsh_read_line os w = Returned line w' ->
    (List.length (w_stdin w') < List.length (w_stdin w))%nat.
Proof.
  intros w. unfold lsh_read_line, bind. rewrite alloc_run.
  destruct (os_alloc os w) eqn:Ha; simpl.
  - apply (read_chars_inv (w_stdin w) [] 0 LSH_RL_BUFSIZE (count_alloc w)).
    reflexivity.
  - split; [|discriminate]. right. split; [reflexivity|]. split; eauto.
Qed.

Lemma lsh_read_line_line : forall line more w,
  (forall w0, os_alloc os w0 = true) ->
  w_stdin w = line ++ newline :: more ->
  ~ In newline line ->
  Z.of_nat (List.length line) + LSH_RL_BUFSIZE <= INT_MAX ->
  exists k, lsh_read_line os w = Returned line (after_reading more k w).
Proof.
  intros line more w Hmem Hin Hnl Hmax.
  unfold lsh_read_line, bind. rewrite alloc_run, Hmem. simpl. rewrite Hin.
  destruct (read_chars_line line more [] 0 LSH_RL_BUFSIZE (count_alloc w)
              Hmem Hnl) as [k Hk]; [lia|].
  rewrite Hk, count_alloc_reading, after_reading_again. simpl app. eauto.
Qed.

Lemma lsh_read_line_eof : forall w,
  (forall w0, os_alloc os w0 = true) ->
  ~ In newline (w_stdin w) ->
  Z.of_nat (List.length (w_stdin w)) + LSH_RL_BUFSIZE <= INT_MAX ->
  exists k, lsh_read_line os w = Exited EXIT_SUCCESS (after_reading [] k w).
Proof.
  intros w Hmem Hnl Hmax.
  unfold lsh_read_line, bind. rewrite alloc_run, Hmem. simpl.
  destruct (read_chars_eof (w_stdin w) [] 0 LSH_RL_BUFSIZE (count_alloc w)
              Hmem Hnl) as [k Hk]; [lia|reflexivity|].
  rewrite Hk, count_alloc_reading, after_reading_again. eauto.
Qed.

(** *** The loop *)

Lemma ends_well_bind : forall {A B} (m : M A) (k : A -> M B) w,
  ends_well os (m w) ->
  (forall a w', m w = Returned a w' -> ends_well os (k a w')) ->
  ends_well os (bind m k w).
Proof.
  intros A B m k w Hm Hk. unfold bind.
  destruct (m w); auto.
Qed.

Lemma lsh_split_line_ends_well : forall line w,
  ends_well os (lsh_split_line os line w).
Proof.
  intros line w. pose proof (lsh_split_line_inv line w) as H.
  destruct (lsh_split_line os line w); simpl; tauto.
Qed.

Lemma lsh_execute_ends_well : forall args w, ends_well os (lsh_execute os args w).
Proof.
  intros args w.
  destruct (lsh_execute_inv args w) as [(r & w' & R & _)|[w' R]];
    rewrite R; exact I.
Qed.

Lemma lsh_loop_step : forall fuel w,
  lsh_loop os (S fuel) w =
    (line <- lsh_read_line os ;;
     args <- lsh_split_line os line ;;
     status <- lsh_execute os args ;;
     if negb (status =? 0) then lsh_loop os fuel else ret tt)
      (put_stdout (lit "> ") w).
Proof. reflexivity. Qed.

Lemma lsh_loop_ends_well : forall fuel w, ends_well os (lsh_loop os fuel w).
Proof.
  induction fuel as [|fuel IH]; intros w; [exact I|].
  rewrite lsh_loop_step.
  apply ends_well_bind; [apply lsh_read_line_inv|]. intros line w1 _.
  apply ends_well_bind; [apply lsh_split_line_ends_well|]. intros args w2 _.
  apply ends_well_bind; [apply lsh_execute_ends_well|]. intros status w3 _.
  destruct (negb (status =? 0)); [apply IH|exact I].
Qed.

(** The bound on the iterations in [lsh_main] is never reached. *)
Lemma split_tokens_fuel : forall fuel s acc pos buf w,
  (List.length s <= fuel)%nat ->
  split_tokens os fuel (strtok s) acc pos buf w <> OutOfFuel.
Proof.
  induction fuel as [|fuel IH]; intros s acc pos buf w Hfuel;
    destruct (strtok s) as [[tok saved]|] eqn:E; simpl; try discriminate.
  - apply strtok_Some in E. destruct E as (_ & _ & _ & _ & _ & _ & _ & _ & L).
    lia.
  - apply strtok_Some in E. destruct E as (_ & _ & _ & _ & _ & _ & _ & _ & L).
    destruct (pos + 1 >=? buf).
    + destruct (buf + LSH_TOK_BUFSIZE >? INT_MAX); [discriminate|].
      unfold bind. rewrite alloc_run.
      destruct (os_alloc os w); simpl; [|discriminate].
      apply IH. lia.
    + apply IH. lia.
Qed.

Lemma read_chars_fuel : forall input buffer pos buf w,
  read_chars os input buffer pos buf w <> OutOfFuel.
Proof.
  induction input as [|c input IH]; intros buffer pos buf w; [discriminate|].
  destruct (Ascii.eqb c newline) eqn:Hc.
  - simpl. unfold bind. rewrite Hc. discriminate.
  - rewrite read_chars_step by exact Hc.
    destruct (pos + 1 >=? buf); [|apply IH].
    destruct (buf + LSH_RL_BUFSIZE >? INT_MAX); [discriminate|].
    unfold bind. rewrite alloc_run.
    destruct (os_alloc os (set_stdin input w)); simpl; [apply IH|discriminate].
Qed.

Lemma lsh_loop_fuel : forall fuel w,
  (List.length (w_stdin w) < fuel)%nat ->
  lsh_loop os fuel w <> OutOfFuel.
Proof.
  induction fuel as [|fuel IH]; intros w Hfuel; [lia|].
  rewrite lsh_loop_step. unfold bind.
  destruct (lsh_read_line os (put_stdout (lit "> ") w)) as [line w1| | | | |] eqn:R1;
    try discriminate.
  - apply lsh_read_line_inv in R1. simpl in R1.
    pose proof (lsh_split_line_inv line w1) as H2.
    destruct (lsh_split_line os line w1) as [args w2| | | | |] eqn:R2;
      try discriminate.
    + destruct H2 as (H2 & _).
      destruct (lsh_execute_inv args w2) as [(r & w3 & R3 & H3 & _)|[w3 R3]];
        rewrite R3; [|discriminate].
      destruct (negb (r =? 0)); [|discriminate].
      apply IH. rewrite H3, H2. lia.
    + unfold lsh_split_line, bind in R2. rewrite alloc_run in R2.
      destruct (os_alloc os w1); simpl in R2; [|discriminate].
      now apply split_tokens_fuel in R2.
  - unfold lsh_read_line, bind in R1. rewrite alloc_run in R1.
    destruct (os_alloc os (put_stdout (lit "> ") w)); simpl in R1;
      [|discriminate].
    now apply read_chars_fuel in R1.
Qed.

(** C6.  However long it runs, [main] returns nothing but [EXIT_SUCCESS],
    and the interpreter calls [exit] only with [EXIT_SUCCESS], at the end of
    the input, or with [EXIT_FAILURE], after an allocation has failed and
    the allocation error was written; it never turns into another program.
    At the end of the input, mid-session or not, after a last line without
    newline or not, it exits with [EXIT_SUCCESS] at once; when the first
    allocation of an iteration fails it exits with [EXIT_FAILURE]. *)
Theorem interpreter_exit_status : forall (fuel : nat) (w : World),
  (forall r w', main os fuel w = Returned r w' -> r = EXIT_SUCCESS) /\
  (forall code w',
      main os fuel w = Exited code w' ->
      code = EXIT_SUCCESS /\ w_stdin w' = [] \/
      code = EXIT_FAILURE /\ (exists w0, os_alloc os w0 = false) /\
      exists w1, w' = put_stderr alloc_error w1) /\
  (forall prog argv w', main os fuel w <> Execed prog argv w') /\
  (w_stdin w = [] ->
   os_alloc os (put_stdout (lit "> ") w) = true ->
   main os (S fuel) w
     = Exited EXIT_SUCCESS (count_alloc (put_stdout (lit "> ") w))) /\
  ((forall w0, os_alloc os w0 = true) ->
   ~ In newline (w_stdin w) ->
   Z.of_nat (List.length (w_stdin w)) + LSH_RL_BUFSIZE <= INT_MAX ->
   exists k,
     main os (S fuel) w
       = Exited EXIT_SUCCESS (after_reading [] k (put_stdout (lit "> ") w))) /\
  (os_alloc os (put_stdout (lit "> ") w) = false ->
   main os (S fuel) w
     = Exited EXIT_FAILURE
         (put_stderr alloc_error (count_alloc (put_stdout (lit "> ") w)))) /\
  lsh_main os w <> OutOfFuel.
Proof.
  intros fuel w.
  pose proof (lsh_loop_ends_well fuel w) as Hwell.
  split; [|split; [|split; [|split; [|split; [|split]]]]].
  - intros r w' H. unfold main, bind in H.
    destruct (lsh_loop os fuel w); try discriminate.
    now injection H as <- _.
  - intros code w' H. unfold main, bind in H.
    destruct (lsh_loop os fuel w); try discriminate.
    injection H as <- <-. exact Hwell.
  - intros prog argv w' H. unfold main, bind in H.
    destruct (lsh_loop os fuel w); try discriminate.
    exact Hwell.
  - intros Hin Ha. unfold main. unfold bind at 1. rewrite lsh_loop_step.
    unfold bind at 1. unfold lsh_read_line, bind. rewrite alloc_run, Ha.
    simpl. now rewrite Hin.
  - intros Hmem Hnl Hmax. unfold main. unfold bind at 1.
    rewrite lsh_loop_step. unfold bind at 1.
    destruct (lsh_read_line_eof (put_stdout (lit "> ") w) Hmem Hnl Hmax)
      as [k Hk].
    rewrite Hk. now exists k.
  - intros Ha. unfold main. unfold bind at 1. rewrite lsh_loop_step.
    unfold bind at 1. unfold lsh_read_line, bind. rewrite alloc_run, Ha.
    reflexivity.
  - unfold lsh_main, main, bind. intros H.
    destruct (lsh_loop os (S (List.length (w_stdin w))) w) eqn:R;
      try discriminate.
    apply lsh_loop_fuel in R; [exact R|lia].
Qed.

(** C8.  [lsh_exit] returns 0 whatever its arguments and changes nothing;
    so does [lsh_execute] on a command whose first token is [exit], and on
    no other command does it return 0.  From any state, when the next line
    of the input splits into [exit] and any arguments, [main] returns
    [EXIT_SUCCESS] at the end of that iteration, the rest of the input
    unread. *)
Theorem exit_builtin_stops_the_loop :
  (forall args w, lsh_exit args w = Returned 0 w) /\
  (forall arg0 rest w,
      c_str arg0 = lit "exit" ->
      lsh_execute os (arg0 :: rest) w = Returned 0 w) /\
  (forall args w w',
      lsh_execute os args w = Returned 0 w' ->
      exists arg0 rest, args = arg0 :: rest /\ c_str arg0 = lit "exit") /\
  (forall fuel line more rest w,
      (forall w0, os_alloc os w0 = true) ->
      w_stdin w = line ++ newline :: more ->
      ~ In newline line ->
      Z.of_nat (List.length line) + LSH_RL_BUFSIZE <= INT_MAX ->
      split_of (c_str line) (lit "exit" :: rest) ->
      exists k,
        main os (S fuel) w
          = Returned EXIT_SUCCESS
              (after_reading more k (put_stdout (lit "> ") w))).
Proof.
  assert (Hexit : forall arg0 rest w,
             c_str arg0 = lit "exit" ->
             lsh_execute os (arg0 :: rest) w = Returned 0 w).
  { intros arg0 rest w Ha.
    now apply (lsh_execute_builtin 2 (lit "exit") lsh_exit). }
  split; [reflexivity|]. split; [exact Hexit|]. split.
  - intros args w w' H.
    destruct (lsh_execute_inv args w) as [(r & w1 & R & _ & C)|[w1 R]];
      rewrite R in H; [|discriminate].
    injection H as -> _.
    destruct C as [C|(_ & _ & C)]; [discriminate|exact C].
  - intros fuel line more rest w Hmem Hin Hnl Hmax Hs.
    unfold main. unfold bind at 1. rewrite lsh_loop_step.
    destruct (lsh_read_line_line line more (put_stdout (lit "> ") w) Hmem)
      as [k1 R1]; auto.
    unfold bind at 1. rewrite R1.
    unfold bind at 1. rewrite lsh_split_line_run by apply Hmem.
    destruct (split_tokens_total (List.length line) line [] 0 LSH_TOK_BUFSIZE
                (count_alloc (after_reading more k1 (put_stdout (lit "> ") w)))
                Hmem (le_n _)) as (toks & k2 & R2).
    { unfold LSH_TOK_BUFSIZE, LSH_RL_BUFSIZE in *. lia. }
    rewrite R2.
    destruct (split_tokens_sound _ _ _ _ _ _ _ _ R2) as (new & -> & Hnew).
    simpl app.
    rewrite (split_of_unique _ _ Hnew _ Hs).
    unfold bind. rewrite Hexit by reflexivity. simpl.
    rewrite after_reading_alloc, after_reading_again.
    unfold ret. eauto.
Qed.

(** ** More on reading a line *)

Lemma read_chars_returned : forall input buffer pos buf w line w',
  read_chars os input buffer pos buf w = Returned line w' ->
  exists l k,
    line = buffer ++ l /\
    input = l ++ newline :: w_stdin w' /\
    ~ In newline l /\
    w' = after_reading (w_stdin w') k w.
Proof.
  induction input as [|c input IH]; intros buffer pos buf w line w' H;
    [discriminate|].
  destruct (Ascii.eqb c newline) eqn:Hc.
  - simpl in H. unfold bind in H. rewrite Hc in H.
    injection H as <- <-. apply Ascii.eqb_eq in Hc. subst c.
    exists [], 0%nat. rewrite app_nil_r. repeat split; auto.
  - rewrite read_chars_step in H by exact Hc.
    assert (Hnext : exists buf' j,
               read_chars os input (buffer ++ [c]) (pos + 1) buf'
                 (after_reading input j w) = Returned line w').
    { destruct (pos + 1 >=? buf); [|now exists buf, 0%nat].
      destruct (buf + LSH_RL_BUFSIZE >? INT_MAX); [discriminate|].
      unfold bind in H. rewrite alloc_run in H.
      destruct (os_alloc os (set_stdin input w)); simpl in H; [|discriminate].
      now exists (buf + LSH_RL_BUFSIZE), 1%nat. }
    destruct Hnext as (buf' & j & Hnext).
    destruct (IH _ _ _ _ _ _ Hnext) as (l & k & -> & -> & Hnl & Hw).
    exists (c :: l), (k + j)%nat. rewrite <- app_assoc.
    repeat split; auto.
    + intros [E|E]; [|contradiction].
      apply Ascii.eqb_neq in Hc. congruence.
    + rewrite Hw at 1. now rewrite after_reading_again.
Qed.

Lemma read_chars_exited : forall input buffer pos buf w w',
  w_stdin w = input ->
  read_chars os input buffer pos buf w = Exited EXIT_SUCCESS w' ->
  ~ In newline input /\ exists k, w' = after_reading [] k w.
Proof.
  induction input as [|c input IH]; intros buffer pos buf w w' Hin H.
  - injection H as <-. split; [intros []|].
    exists 0%nat. now rewrite <- Hin, after_reading_same.
  - destruct (Ascii.eqb c newline) eqn:Hc.
    + simpl in H. unfold bind in H. rewrite Hc in H. discriminate.
    + rewrite read_chars_step in H by exact Hc.
      assert (Hnext : exists buf' j,
                 read_chars os input (buffer ++ [c]) (pos + 1) buf'
                   (after_reading input j w) = Exited EXIT_SUCCESS w').
      { destruct (pos + 1 >=? buf); [|now exists buf, 0%nat].
        destruct (buf + LSH_RL_BUFSIZE >? INT_MAX); [discriminate|].
        unfold bind in H. rewrite alloc_run in H.
        destruct (os_alloc os (set_stdin input w)); simpl in H;
          [|discriminate].
        now exists (buf + LSH_RL_BUFSIZE), 1%nat. }
      destruct Hnext as (buf' & j & Hnext).
      destruct (IH (buffer ++ [c]) (pos + 1) buf' (after_reading input j w) w'
                  eq_refl Hnext) as (Hnl & k & Hw).
      split.
      * intros [E|E]; [|contradiction].
        apply Ascii.eqb_neq in Hc. congruence.
      * exists (k + j)%nat. rewrite Hw. now rewrite after_reading_again.
Qed.

(** X1.  Whenever [lsh_read_line] returns, what it returns is the input up
    to the first newline, the newline is read too and nothing after it, and
    but for the count of allocations nothing else of the world has
    changed. *)
Theorem lsh_read_line_returns_first_line : forall (w : World) line w',
  lsh_read_line os w = Returned line w' ->
  w_stdin w = line ++ newline :: w_stdin w' /\
  ~ In newline line /\
  exists k, w' = after_reading (w_stdin w') (S k) w.
Proof.
  intros w line w' H. unfold lsh_read_line, bind in H.
  rewrite alloc_run in H.
  destruct (os_alloc os w); simpl in H; [|discriminate].
  destruct (read_chars_returned _ _ _ _ _ _ _ H) as (l & k & E & Hin & Hnl & Hw).
  simpl in E, Hin. subst l.
  split; [exact Hin|]. split; [exact Hnl|].
  exists k. rewrite Hw at 1.
  rewrite count_alloc_reading, after_reading_again.
  f_equal. lia.
Qed.

(** X2.  Whenever [lsh_read_line] leaves with [EXIT_SUCCESS], the input had
    no newline left: what was typed on the last, unfinished line is dropped,
    the input is read to its end and nothing is written. *)
Theorem lsh_read_line_drops_unfinished_line : forall (w w' : World),
  lsh_read_line os w = Exited EXIT_SUCCESS w' ->
  ~ In newline (w_stdin w) /\
  exists k, w' = after_reading [] (S k) w.
Proof.
  intros w w' H. unfold lsh_read_line, bind in H.
  rewrite alloc_run in H.
  destruct (os_alloc os w); simpl in H; [|discriminate].
  destruct (read_chars_exited (w_stdin w) [] 0 LSH_RL_BUFSIZE (count_alloc w)
              w' eq_refl H) as (Hnl & k & Hw).
  split; [exact Hnl|].
  exists k. rewrite Hw.
  rewrite count_alloc_reading, after_reading_again.
  f_equal. lia.
Qed.

Ltac div_lia := zify; Z.div_mod_to_equations; lia.

Lemma read_chars_blocks : forall line more buffer (p : nat) w,
  (forall w0, os_alloc os w0 = true) ->
  ~ In newline line ->
  Z.of_nat p + Z.of_nat (List.length line) + LSH_RL_BUFSIZE <= INT_MAX ->
  read_chars os (line ++ newline :: more) buffer (Z.of_nat p)
    (LSH_RL_BUFSIZE * (Z.of_nat (p / 1024) + 1)) w
    = Returned (buffer ++ line)
        (after_reading more ((p + List.length line) / 1024 - p / 1024) w).
Proof.
  unfold LSH_RL_BUFSIZE, INT_MAX.
  induction line as [|c line IH]; intros more buffer p w Hmem Hnl Hmax.
  - cbn [app read_chars List.length]. unfold bind.
    rewrite Ascii.eqb_refl, app_nil_r, Nat.add_0_r, Nat.sub_diag.
    reflexivity.
  - apply not_newline in Hnl. destruct Hnl as [Hc Hnl].
    cbn [List.length] in Hmax. cbn [app List.length].
    rewrite read_chars_step by exact Hc.
    unfold LSH_RL_BUFSIZE, INT_MAX.
    replace (Z.of_nat p + 1) with (Z.of_nat (S p)) by lia.
    destruct (Z.of_nat (S p) >=? 1024 * (Z.of_nat (p / 1024) + 1)) eqn:Hge;
      rewrite Z.geb_leb in Hge.
    + apply Z.leb_le in Hge.
      assert (Hov : (1024 * (Z.of_nat (p / 1024) + 1) + 1024 >? 2147483647)
                    = false).
      { rewrite Z.gtb_ltb. apply Z.ltb_ge. lia. }
      rewrite Hov. unfold bind. rewrite alloc_run, Hmem. cbn [negb].
      replace (1024 * (Z.of_nat (p / 1024) + 1) + 1024)
        with (1024 * (Z.of_nat (S p / 1024) + 1)) by div_lia.
      rewrite IH by (auto; lia).
      rewrite count_alloc_reading, after_reading_again, set_stdin_again,
        <- app_assoc.
      simpl app. do 2 f_equal. div_lia.
    + apply Z.leb_gt in Hge.
      replace (1024 * (Z.of_nat (p / 1024) + 1))
        with (1024 * (Z.of_nat (S p / 1024) + 1)) by div_lia.
      rewrite IH by (auto; lia).
      rewrite set_stdin_again, <- app_assoc.
      simpl app. do 2 f_equal. div_lia.
Qed.

(** X3.  With memory to allocate, [lsh_read_line] returns the line before
    the first newline after one allocation and one more for every 1024
    characters of the line: the buffer grows by blocks of [LSH_RL_BUFSIZE]
    and always has room for the terminator. *)
Theorem lsh_read_line_allocates_by_blocks : forall line more (w : World),
  (forall w0, os_alloc os w0 = true) ->
  w_stdin w = line ++ newline :: more ->
  ~ In newline line ->
  Z.of_nat (List.length line) + LSH_RL_BUFSIZE <= INT_MAX ->
  lsh_read_line os w
    = Returned line (after_reading more (S (List.length line / 1024)) w).
Proof.
  intros line more w Hmem Hin Hnl Hmax.
  unfold lsh_read_line, bind. rewrite alloc_run, Hmem. cbn [negb w_stdin count_alloc].
  rewrite Hin.
  pose proof (read_chars_blocks line more [] 0 (count_alloc w) Hmem Hnl Hmax)
    as R.
  change (Z.of_nat 0) with 0 in R.
  change (LSH_RL_BUFSIZE * (Z.of_nat (0 / 1024) + 1)) with LSH_RL_BUFSIZE in R.
  rewrite R, count_alloc_reading, after_reading_again.
  cbn [app]. do 2 f_equal. div_lia.
Qed.

(** ** More on splitting a line *)

Lemma split_tokens_blocks : forall fuel s acc w toks w',
  split_tokens os fuel (strtok s) acc (Z.of_nat (List.length acc))
    (LSH_TOK_BUFSIZE * (Z.of_nat (List.length acc / 64) + 1)) w
    = Returned toks w' ->
  w' = after_reading (w_stdin w)
         (List.length toks / 64 - List.length acc / 64) w.
Proof.
  unfold LSH_TOK_BUFSIZE.
  induction fuel as [|fuel IH]; intros s acc w toks w' H;
    destruct (strtok s) as [[tok saved]|] eqn:E; cbn [split_tokens] in H;
    try discriminate;
    try (injection H as <- <-; now rewrite Nat.sub_diag, after_reading_same).
  unfold LSH_TOK_BUFSIZE, INT_MAX in H.
  assert (Hlen : List.length (acc ++ [tok]) = S (List.length acc))
    by (rewrite length_app; simpl; lia).
  replace (Z.of_nat (List.length acc) + 1)
    with (Z.of_nat (List.length (acc ++ [tok]))) in H by lia.
  destruct (Z.of_nat (List.length (acc ++ [tok]))
            >=? 64 * (Z.of_nat (List.length acc / 64) + 1)) eqn:Hge;
    rewrite Z.geb_leb in Hge.
  - apply Z.leb_le in Hge.
    destruct (64 * (Z.of_nat (List.length acc / 64) + 1) + 64 >? 2147483647);
      [discriminate|].
    unfold bind in H. rewrite alloc_run in H.
    destruct (os_alloc os w); cbn [negb] in H; [|discriminate].
    replace (64 * (Z.of_nat (List.length acc / 64) + 1) + 64)
      with (64 * (Z.of_nat (List.length (acc ++ [tok]) / 64) + 1)) in H
      by (rewrite Hlen in *; div_lia).
    destruct (split_tokens_sound _ _ _ _ _ _ _ _ H) as (new & Htoks & _).
    apply IH in H. rewrite H.
    rewrite count_alloc_reading, after_reading_again.
    f_equal. subst toks. rewrite !length_app in *. simpl List.length in *.
    div_lia.
  - apply Z.leb_gt in Hge.
    replace (64 * (Z.of_nat (List.length acc / 64) + 1))
      with (64 * (Z.of_nat (List.length (acc ++ [tok]) / 64) + 1)) in H
      by (rewrite Hlen in *; div_lia).
    destruct (split_tokens_sound _ _ _ _ _ _ _ _ H) as (new & Htoks & _).
    apply IH in H. rewrite H.
    f_equal. subst toks. rewrite !length_app in *. simpl List.length in *.
    div_lia.
Qed.

(** X4.  Whenever [lsh_split_line] returns, it has made one allocation and
    one more for every 64 tokens, so the array always has room for the
    terminator, and it has changed nothing else of the world. *)
Theorem lsh_split_line_allocates_by_blocks :
  forall (line : list ascii) (w : World) toks w',
    lsh_split_line os line w = Returned toks w' ->
    w' = after_reading (w_stdin w) (S (List.length toks / 64)) w.
Proof.
  intros line w toks w' H. unfold lsh_split_line, bind in H.
  rewrite alloc_run in H.
  destruct (os_alloc os w); cbn [negb] in H; [|discriminate].
  pose proof (split_tokens_blocks (List.length line) line [] (count_alloc w)
                toks w') as B.
  change (Z.of_nat (List.length (@nil cstring))) with 0 in B.
  change (LSH_TOK_BUFSIZE * (Z.of_nat (List.length (@nil cstring) / 64) + 1))
    with LSH_TOK_BUFSIZE in B.
  rewrite (B H), count_alloc_reading, after_reading_again.
  f_equal. simpl List.length. div_lia.
Qed.

Lemma c_str_has_no_nul : forall s, Forall (fun c => is_nul c = false) (c_str s).
Proof.
  induction s as [|c s IH]; simpl; [constructor|].
  destruct (is_nul c) eqn:E; constructor; auto.
Qed.

Lemma c_str_app_nul : forall a b, c_str (a ++ NUL :: b) = c_str a.
Proof.
  induction a as [|c a IH]; intros b; simpl; [reflexivity|].
  destruct (is_nul c); [reflexivity|]. now rewrite IH.
Qed.

Lemma c_str_app : forall a b,
  Forall (fun c => is_nul c = false) a -> c_str (a ++ b) = a ++ c_str b.
Proof.
  induction 1 as [|c a Hc _ IH]; simpl; [reflexivity|].
  now rewrite Hc, IH.
Qed.

Lemma split_of_chars : forall s toks,
  split_of s toks ->
  Forall (fun tok => forall c, In c tok -> In c s) toks.
Proof.
  induction 1 as [|ds tok rest toks F Hne Fp C Hrest IH]; constructor.
  - intros c Hc. apply in_or_app. right. apply in_or_app. now left.
  - eapply Forall_impl; [|exact IH]. intros t Ht c Hc.
    apply in_or_app. right. apply in_or_app. right. now apply Ht.
Qed.

Lemma split_of_is_token : forall s toks,
  Forall (fun c => is_nul c = false) s ->
  split_of s toks -> Forall is_token toks.
Proof.
  intros s toks Hs H.
  pose proof (split_of_tokens s toks H) as Ht.
  pose proof (split_of_chars s toks H) as Hc.
  rewrite Forall_forall in *. intros tok Hin.
  destruct (Ht tok Hin) as [Hne Hp].
  split; [exact Hne|]. split; [exact Hp|].
  apply Forall_forall. intros c Hc'. apply Hs. now apply (Hc tok Hin).
Qed.

Lemma split_of_delims_app : forall ds s toks,
  Forall (fun c => is_delim c = true) ds ->
  split_of s toks -> split_of (ds ++ s) toks.
Proof.
  induction 1 as [|d ds Hd _ IH]; intros H; [exact H|].
  simpl. apply split_of_delim_cons; auto.
Qed.

Lemma split_of_app : forall a ta,
  split_of a ta ->
  forall d b tb,
    is_delim d = true -> split_of b tb ->
    split_of (a ++ d :: b) (ta ++ tb).
Proof.
  induction 1 as [ds F|ds tok rest toks F Hne Fp C Hrest IH];
    intros d b tb Hd Hb.
  - simpl. apply split_of_delims_app; [exact F|].
    now apply split_of_delim_cons.
  - rewrite <- !app_assoc. simpl.
    apply split_token; auto.
    right. destruct C as [->|(d' & r & -> & Hd')]; simpl; eauto.
Qed.

Lemma unwords_cons : forall tok tok' more,
  unwords (tok :: tok' :: more) = tok ++ " "%char :: unwords (tok' :: more).
Proof. reflexivity. Qed.

Lemma split_of_unwords : forall toks,
  Forall is_token toks -> split_of (unwords toks) toks.
Proof.
  induction 1 as [|tok toks (Hne & Hp & _) Hrest IH].
  - apply split_done. constructor.
  - destruct toks as [|tok' more].
    + simpl. rewrite <- (app_nil_r tok) at 1.
      apply (split_token [] tok [] []);
        [constructor|exact Hne|exact Hp|now left|exact IH].
    + rewrite unwords_cons.
      apply (split_token [] tok (" "%char :: unwords (tok' :: more)));
        [constructor|exact Hne|exact Hp|right; eauto|].
      now apply split_of_delim_cons.
Qed.

Lemma unwords_no_nul : forall toks,
  Forall is_token toks -> Forall (fun c => is_nul c = false) (unwords toks).
Proof.
  induction 1 as [|tok toks (_ & _ & Hn) Hrest IH]; [constructor|].
  destruct toks as [|tok' more]; [exact Hn|].
  rewrite unwords_cons. apply Forall_app. split; [exact Hn|].
  constructor; [reflexivity|exact IH].
Qed.

Lemma lsh_split_line_returned : forall line w toks w',
  lsh_split_line os line w = Returned toks w' ->
  split_of (c_str line) toks.
Proof.
  intros line w toks w' H.
  pose proof (lsh_split_line_inv line w) as Hinv. rewrite H in Hinv.
  apply Hinv.
Qed.

Lemma lsh_split_line_total : forall line w,
  (forall w0, os_alloc os w0 = true) ->
  Z.of_nat (List.length line) + LSH_TOK_BUFSIZE <= INT_MAX ->
  exists w',
    lsh_split_line os line w = Returned (split_on_delims (c_str line)) w'.
Proof.
  intros line w Hmem Hlen. rewrite lsh_split_line_run by apply Hmem.
  destruct (split_tokens_total (List.length line) line [] 0 LSH_TOK_BUFSIZE
              (count_alloc w) Hmem (le_n _) Hlen) as (toks & k & R).
  rewrite R.
  destruct (split_tokens_sound _ _ _ _ _ _ _ _ R) as (new & -> & Hnew).
  rewrite (split_of_computed _ _ Hnew). simpl app. eauto.
Qed.

(** X5.  [lsh_split_line] reads the line as a C string: what follows a NUL
    character in it is ignored, as if the line ended there, and no token it
    returns is empty or holds a NUL or a delimiter. *)
Theorem lsh_split_line_stops_at_nul :
  forall (before rest : list ascii) (w : World),
    (forall toks w',
        lsh_split_line os (before ++ NUL :: rest) w = Returned toks w' ->
        toks = split_on_delims (c_str before) /\ Forall is_token toks) /\
    ((forall w0, os_alloc os w0 = true) ->
     Z.of_nat (List.length (before ++ NUL :: rest)) + LSH_TOK_BUFSIZE
       <= INT_MAX ->
     exists w',
       lsh_split_line os (before ++ NUL :: rest) w
         = Returned (split_on_delims (c_str before)) w').
Proof.
  intros before rest w. split.
  - intros toks w' H. apply lsh_split_line_returned in H.
    split.
    + rewrite c_str_app_nul in H. now apply split_of_computed.
    + apply (split_of_is_token (c_str (before ++ NUL :: rest)));
        [apply c_str_has_no_nul|exact H].
  - intros Hmem Hlen.
    destruct (lsh_split_line_total (before ++ NUL :: rest) w Hmem Hlen)
      as [w' R].
    rewrite c_str_app_nul in R. eauto.
Qed.

(** X6.  A delimiter always separates: the tokens of two lines put together
    with a delimiter between them are the tokens of the first followed by
    the tokens of the second. *)
Theorem lsh_split_line_at_a_delimiter :
  forall (a b : list ascii) (d : ascii) (w wa wb : World) ta tb t w' wa' wb',
    is_delim d = true ->
    Forall (fun c => is_nul c = false) a ->
    lsh_split_line os a wa = Returned ta wa' ->
    lsh_split_line os b wb = Returned tb wb' ->
    lsh_split_line os (a ++ d :: b) w = Returned t w' ->
    t = ta ++ tb.
Proof.
  intros a b d w wa wb ta tb t w' wa' wb' Hd Ha Ra Rb R.
  apply lsh_split_line_returned in Ra, Rb, R.
  rewrite (c_str_no_nul a Ha) in Ra.
  rewrite (c_str_app a (d :: b) Ha) in R.
  simpl c_str in R. rewrite (is_delim_not_nul d Hd) in R.
  exact (split_of_unique _ _ R _ (split_of_app a ta Ra d (c_str b) tb Hd Rb)).
Qed.

(** X7.  Tokens written back as a line, a space between two, split into
    themselves: so does the command [lsh_split_line] has returned, and
    splitting is the same after this round trip. *)
Theorem lsh_split_line_round_trip :
  (forall (toks : list cstring) (w : World) toks' w',
      Forall is_token toks ->
      lsh_split_line os (unwords toks) w = Returned toks' w' ->
      toks' = toks) /\
  (forall (line : list ascii) (w1 w2 : World) toks toks' w1' w2',
      lsh_split_line os line w1 = Returned toks w1' ->
      lsh_split_line os (unwords toks) w2 = Returned toks' w2' ->
      toks' = toks).
Proof.
  assert (Hround : forall (toks : list cstring) (w : World) toks' w',
             Forall is_token toks ->
             lsh_split_line os (unwords toks) w = Returned toks' w' ->
             toks' = toks).
  { intros toks w toks' w' Ht R. apply lsh_split_line_returned in R.
    rewrite (c_str_no_nul _ (unwords_no_nul toks Ht)) in R.
    exact (split_of_unique _ _ R _ (split_of_unwords toks Ht)). }
  split; [exact Hround|].
  intros line w1 w2 toks toks' w1' w2' R1 R2.
  apply (Hround toks w2 toks' w2'); [|exact R2].
  apply lsh_split_line_returned in R1.
  apply (split_of_is_token (c_str line)); [apply c_str_has_no_nul|exact R1].
Qed.

(** ** More on launching and dispatching *)

Lemma after_child_fields : forall arg0 rest w,
  w_stdin (after_child os arg0 rest w) = w_stdin w /\
  w_stdout (after_child os arg0 rest w) = w_stdout w /\
  w_cwd (after_child os arg0 rest w) = w_cwd w /\
  w_children (after_child os arg0 rest w) = w_children w /\
  w_nfork (after_child os arg0 rest w) = w_nfork w /\
  w_nalloc (after_child os arg0 rest w) = w_nalloc w /\
  exists err, w_stderr (after_child os arg0 rest w) = w_stderr w ++ err.
Proof.
  intros arg0 rest w. unfold after_child.
  destruct (os_execvp os w arg0 (arg0 :: rest)) as [e|]; simpl;
    repeat split; eauto.
  exists []. now rewrite app_nil_r.
Qed.

Lemma lsh_launch_cases : forall arg0 rest w,
  (exists e,
      os_fork os w = inl e /\
      lsh_launch os (arg0 :: rest) w
        = Returned 1
            (put_stderr (lsh_perror_text os e) (set_errno e (count_fork w))))
  \/ (exists p stops s later,
         os_fork os w = inr p /\
         child_reports os arg0 rest (count_fork w) = stops ++ s :: later /\
         Forall waits_on stops /\
         (WIFEXITED s = true \/ WIFSIGNALED s = true) /\
         lsh_launch os (arg0 :: rest) w
           = Returned 1 (after_child os arg0 rest (count_fork w)))
  \/ (exists p w',
         os_fork os w = inr p /\
         Forall waits_on (child_reports os arg0 rest (count_fork w)) /\
         lsh_launch os (arg0 :: rest) w = Blocked w').
Proof.
  intros arg0 rest w.
  destruct (os_fork os w) as [e|p] eqn:Hf.
  - left. exists e. split; [reflexivity|].
    unfold lsh_launch. rewrite Hf. apply launch_fork_error.
  - right.
    destruct (wait_loop_inv (Z.pos p)
                (child_reports os arg0 rest (count_fork w))
                (set_children
                   ((Z.pos p, child_reports os arg0 rest (count_fork w))
                      :: w_children w)
                   (after_child os arg0 rest (count_fork w))))
      as [(s & stops & later & E & F & T & R)|[F R]].
    + left. exists p, stops, s, later. repeat split; auto.
      now apply (launch_forked_ends arg0 rest p w stops s later).
    + right. eexists p, _. repeat split; auto.
      rewrite (launch_forked arg0 rest p w Hf). unfold bind. now rewrite R.
Qed.

(** X8.  Whenever [lsh_launch] returns, it has called [fork] once and left
    no child behind; it has read no input, written nothing to stdout, made
    no allocation and not changed the working directory; to stderr it has
    only added. *)
Theorem lsh_launch_leaves_no_trace :
  forall (arg0 : cstring) (rest : list cstring) (w : World) r w',
    lsh_launch os (arg0 :: rest) w = Returned r w' ->
    w_children w' = w_children w /\
    w_nfork w' = S (w_nfork w) /\
    w_stdin w' = w_stdin w /\
    w_stdout w' = w_stdout w /\
    w_nalloc w' = w_nalloc w /\
    w_cwd w' = w_cwd w /\
    exists err, w_stderr w' = w_stderr w ++ err.
Proof.
  intros arg0 rest w r w' H.
  destruct (lsh_launch_cases arg0 rest w)
    as [(e & _ & R)|[(p & stops & s & later & _ & _ & _ & _ & R)
                    |(p & w1 & _ & _ & R)]];
    rewrite R in H; [| |discriminate]; injection H as _ <-.
  - simpl. repeat split; eauto.
  - destruct (after_child_fields arg0 rest (count_fork w))
      as (H1 & H2 & H3 & H4 & H5 & H6 & H7).
    repeat split; auto.
Qed.

(** X9.  [lsh_launch] does not come back exactly when [fork] has made a
    child and none of the state changes the child reports is an exit or a
    death by signal: a child that runs on, or stays stopped, blocks the
    interpreter, and nothing else does. *)
Theorem lsh_launch_blocks_on_a_child_that_stays :
  forall (arg0 : cstring) (rest : list cstring) (w : World),
    (exists w', lsh_launch os (arg0 :: rest) w = Blocked w') <->
    (exists p, os_fork os w = inr p) /\
    Forall waits_on (child_reports os arg0 rest (count_fork w)).
Proof.
  intros arg0 rest w. split.
  - intros [w' H].
    destruct (lsh_launch_cases arg0 rest w)
      as [(e & _ & R)|[(p & stops & s & later & _ & _ & _ & _ & R)
                      |(p & w1 & Hf & F & R)]];
      rewrite R in H; try discriminate.
    split; [now exists p|exact F].
  - intros [[p Hf] F].
    destruct (lsh_launch_cases arg0 rest w)
      as [(e & Hf' & _)|[(p' & stops & s & later & _ & E & _ & T & _)
                        |(p' & w1 & _ & _ & R)]].
    + congruence.
    + exfalso. rewrite E in F. apply Forall_app in F. destruct F as [_ F].
      inversion F as [|? ? [He Hs] _]; subst.
      destruct T; congruence.
    + now exists w1.
Qed.

Lemma lsh_cd_fields : forall arg0 rest w r w',
  lsh_cd os (arg0 :: rest) w = Returned r w' ->
  w_stdin w' = w_stdin w /\ w_stdout w' = w_stdout w /\
  w_children w' = w_children w /\ w_nfork w' = w_nfork w /\
  w_nalloc w' = w_nalloc w /\
  exists err, w_stderr w' = w_stderr w ++ err.
Proof.
  intros arg0 [|dir extra] w r w' H; unfold lsh_cd in H.
  - injection H as _ <-. simpl. repeat split; eauto.
  - unfold bind, chdir in H.
    destruct (os_chdir os w dir); simpl in H; injection H as _ <-; simpl;
      repeat split; eauto.
    exists []. now rewrite app_nil_r.
Qed.

(** X10.  Whenever [lsh_execute] returns, it has read no input, made no
    allocation and left the children as they were, and to stderr it has only
    added.  The working directory is another only after [cd], stdout is
    longer only after [help], and [fork] was called only for a name that is
    not a builtin. *)
Theorem lsh_execute_touches_little :
  forall (args : list cstring) (w : World) r w',
    lsh_execute os args w = Returned r w' ->
    w_stdin w' = w_stdin w /\
    w_nalloc w' = w_nalloc w /\
    w_children w' = w_children w /\
    (exists err, w_stderr w' = w_stderr w ++ err) /\
    (w_cwd w' <> w_cwd w ->
     exists arg0 rest, args = arg0 :: rest /\ c_str arg0 = lit "cd") /\
    (w_stdout w' <> w_stdout w ->
     exists arg0 rest, args = arg0 :: rest /\ c_str arg0 = lit "help") /\
    (w_nfork w' <> w_nfork w ->
     exists arg0 rest, args = arg0 :: rest /\ ~ In (c_str arg0) builtin_str).
Proof.
  assert (Hnil : forall l : list ascii, exists err, l = l ++ err)
    by (intros l; exists []; now rewrite app_nil_r).
  intros [|arg0 rest] w r w' H.
  - injection H as _ <-. repeat split; auto; intros C; now contradiction C.
  - rewrite lsh_execute_unfold in H.
    destruct (strcmp arg0 (lit "cd") =? 0) eqn:Ecd.
    { apply (strcmp_eqb arg0 (lit "cd") eq_refl) in Ecd.
      destruct (lsh_cd_fields arg0 rest w r w' H)
        as (H1 & H2 & H3 & H4 & H5 & H6).
      repeat split; auto; try (intros C; now contradiction C).
      intros _. eauto. }
    destruct (strcmp arg0 (lit "help") =? 0) eqn:Ehelp.
    { apply (strcmp_eqb arg0 (lit "help") eq_refl) in Ehelp.
      rewrite lsh_help_run in H. injection H as _ <-. simpl.
      repeat split; auto; try (intros C; now contradiction C).
      intros _. eauto. }
    destruct (strcmp arg0 (lit "exit") =? 0) eqn:Eexit.
    { injection H as _ <-.
      repeat split; auto; intros C; now contradiction C. }
    destruct (lsh_launch_cases arg0 rest w)
      as [(e & _ & R)|[(p & stops & s & later & _ & _ & _ & _ & R)
                      |(p & w1 & _ & _ & R)]];
      rewrite R in H; [| |discriminate]; injection H as _ <-.
    + simpl. repeat split; eauto; try (intros C; now contradiction C).
      intros _. exists arg0, rest. split; [reflexivity|].
      intros [E|[E|[E|[]]]]; symmetry in E.
      * apply (strcmp_eqb arg0 (lit "cd") eq_refl) in E. congruence.
      * apply (strcmp_eqb arg0 (lit "help") eq_refl) in E. congruence.
      * apply (strcmp_eqb arg0 (lit "exit") eq_refl) in E. congruence.
    + destruct (after_child_fields arg0 rest (count_fork w))
        as (H1 & H2 & H3 & H4 & H5 & H6 & H7).
      repeat split; auto; try (intros C; now contradiction C).
      intros _. exists arg0, rest. split; [reflexivity|].
      intros [E|[E|[E|[]]]]; symmetry in E.
      * apply (strcmp_eqb arg0 (lit "cd") eq_refl) in E. congruence.
      * apply (strcmp_eqb arg0 (lit "help") eq_refl) in E. congruence.
      * apply (strcmp_eqb arg0 (lit "exit") eq_refl) in E. congruence.
Qed.

(** ** More on the loop *)

Lemma lsh_loop_reads_and_splits : forall fuel line more w,
  (forall w0, os_alloc os w0 = true) ->
  w_stdin w = line ++ newline :: more ->
  ~ In newline line ->
  Z.of_nat (List.length line) + LSH_RL_BUFSIZE <= INT_MAX ->
  exists k,
    lsh_loop os (S fuel) w =
      (status <- lsh_execute os (split_on_delims (c_str line)) ;;
       if negb (status =? 0) then lsh_loop os fuel else ret tt)
        (after_reading more k (put_stdout (lit "> ") w)).
Proof.
  intros fuel line more w Hmem Hin Hnl Hmax.
  rewrite lsh_loop_step.
  destruct (lsh_read_line_line line more (put_stdout (lit "> ") w) Hmem)
    as [k1 R1]; auto.
  unfold bind at 1. rewrite R1.
  unfold bind at 1. rewrite lsh_split_line_run by apply Hmem.
  destruct (split_tokens_total (List.length line) line [] 0 LSH_TOK_BUFSIZE
              (count_alloc (after_reading more k1 (put_stdout (lit "> ") w)))
              Hmem (le_n _)) as (toks & k2 & R2).
  { unfold LSH_TOK_BUFSIZE, LSH_RL_BUFSIZE in *. lia. }
  rewrite R2.
  destruct (split_tokens_sound _ _ _ _ _ _ _ _ R2) as (new & -> & Hnew).
  rewrite (split_of_computed _ _ Hnew). simpl app.
  rewrite after_reading_alloc, after_reading_again.
  now exists (k2 + S k1)%nat.
Qed.

(** X11.  A line that is empty or made of delimiters only is passed over:
    with memory to allocate, the iteration that reads it prints the prompt,
    reads the line and nothing more, runs no command, and the loop goes on
    with the next line. *)
Theorem blank_line_only_prompts_again :
  forall (fuel : nat) (line more : list ascii) (w : World),
    (forall w0, os_alloc os w0 = true) ->
    w_stdin w = line ++ newline :: more ->
    ~ In newline line ->
    Z.of_nat (List.length line) + LSH_RL_BUFSIZE <= INT_MAX ->
    Forall (fun c => is_delim c = true) (c_str line) ->
    exists k,
      lsh_loop os (S fuel) w
        = lsh_loop os fuel (after_reading more k (put_stdout (lit "> ") w)).
Proof.
  intros fuel line more w Hmem Hin Hnl Hmax Hblank.
  destruct (lsh_loop_reads_and_splits fuel line more w Hmem Hin Hnl Hmax)
    as [k R].
  exists k. rewrite R.
  rewrite <- (split_of_computed _ _ (split_done _ Hblank)).
  reflexivity.
Qed.

(** X12.  Nothing but [exit] ends the loop on a command: with memory to
    allocate, when the next line splits into a command whose first token is
    not [exit], then [lsh_execute] blocks on it, and the loop with it, or
    it returns 1, whatever went wrong (no such program, no such directory,
    no process left), and the loop goes on with the next line. *)
Theorem only_exit_ends_the_loop :
  forall (fuel : nat) (line more : list ascii) arg0 rest (w : World),
    (forall w0, os_alloc os w0 = true) ->
    w_stdin w = line ++ newline :: more ->
    ~ In newline line ->
    Z.of_nat (List.length line) + LSH_RL_BUFSIZE <= INT_MAX ->
    split_of (c_str line) (arg0 :: rest) ->
    c_str arg0 <> lit "exit" ->
    exists k,
      (exists w',
          lsh_execute os (arg0 :: rest)
            (after_reading more k (put_stdout (lit "> ") w)) = Blocked w' /\
          lsh_loop os (S fuel) w = Blocked w') \/
      (exists w3,
          lsh_execute os (arg0 :: rest)
            (after_reading more k (put_stdout (lit "> ") w)) = Returned 1 w3 /\
          w_stdin w3 = more /\
          lsh_loop os (S fuel) w = lsh_loop os fuel w3).
Proof.
  intros fuel line more arg0 rest w Hmem Hin Hnl Hmax Hs Hne.
  destruct (lsh_loop_reads_and_splits fuel line more w Hmem Hin Hnl Hmax)
    as [k R].
  exists k. rewrite R. rewrite <- (split_of_computed _ _ Hs).
  unfold bind.
  destruct (lsh_execute_inv (arg0 :: rest)
              (after_reading more k (put_stdout (lit "> ") w)))
    as [(r & w3 & E & Hst & C)|[w' E]]; rewrite E.
  - right. exists w3.
    destruct C as [->|(_ & _ & a & l & Ha & Hx)].
    + repeat split; auto.
    + injection Ha as <- _. contradiction.
  - left. now exists w'.
Qed.

(** *** What a session keeps *)

Lemma comes_after_refl : forall w, comes_after w w.
Proof.
  intros w. repeat split; try (exists []; now rewrite ?app_nil_r).
Qed.

Lemma comes_after_trans : forall w1 w2 w3,
  comes_after w1 w2 -> comes_after w2 w3 -> comes_after w1 w3.
Proof.
  intros w1 w2 w3 ([r1 H1] & [o1 H2] & [e1 H3] & H4)
                  ([r2 H5] & [o2 H6] & [e2 H7] & H8).
  repeat split.
  - exists (r1 ++ r2). now rewrite H1, H5, app_assoc.
  - exists (o1 ++ o2). now rewrite H6, H2, app_assoc.
  - exists (e1 ++ e2). now rewrite H7, H3, app_assoc.
  - congruence.
Qed.

Lemma stays_later : forall {A} (o : outcome A) w1 w2,
  comes_after w1 w2 -> stays_in_session w2 o -> stays_in_session w1 o.
Proof.
  intros A [a w'|c w'| | | |] w1 w2 H12 H; simpl in *; auto;
    eapply comes_after_trans; eauto.
Qed.

Lemma stays_bind : forall {A B} (m : M A) (k : A -> M B) w,
  stays_in_session w (m w) ->
  (forall a w', m w = Returned a w' -> stays_in_session w' (k a w')) ->
  stays_in_session w (bind m k w).
Proof.
  intros A B m k w Hm Hk. unfold bind.
  destruct (m w) as [a w'|c w'| | | |] eqn:E; simpl in *; auto.
  eapply stays_later; [exact Hm|]. now apply Hk.
Qed.

Lemma comes_after_reading : forall read i k w,
  w_stdin w = read ++ i -> comes_after w (after_reading i k w).
Proof.
  intros read i k w H. repeat split; simpl.
  - now exists read.
  - exists []. now rewrite app_nil_r.
  - exists []. now rewrite app_nil_r.
Qed.

Lemma comes_after_stderr : forall text w, comes_after w (put_stderr text w).
Proof.
  intros text w. repeat split; simpl.
  - now exists [].
  - exists []. now rewrite app_nil_r.
  - now exists text.
Qed.

Lemma comes_after_stdout : forall text w, comes_after w (put_stdout text w).
Proof.
  intros text w. repeat split; simpl.
  - now exists [].
  - now exists text.
  - exists []. now rewrite app_nil_r.
Qed.

Lemma alloc_failure_stays : forall {A} w,
  stays_in_session w ((fprintf_stderr alloc_error ;; @exit EXIT_FAILURE A)
                        (count_alloc w)).
Proof.
  intros A w. simpl.
  eapply comes_after_trans; [|apply comes_after_stderr].
  rewrite count_alloc_reading. now apply (comes_after_reading []).
Qed.

Lemma read_chars_stays : forall input buffer pos buf w,
  w_stdin w = input ->
  stays_in_session w (read_chars os input buffer pos buf w).
Proof.
  induction input as [|c input IH]; intros buffer pos buf w Hin.
  - simpl. apply comes_after_refl.
  - assert (Hstep : comes_after w (set_stdin input w)).
    { rewrite set_stdin_reading. now apply (comes_after_reading [c]). }
    destruct (Ascii.eqb c newline) eqn:Hc.
    + simpl. unfold bind. rewrite Hc. exact Hstep.
    + rewrite read_chars_step by exact Hc.
      eapply stays_later; [exact Hstep|].
      destruct (pos + 1 >=? buf); [|now apply IH].
      destruct (buf + LSH_RL_BUFSIZE >? INT_MAX); [exact I|].
      unfold bind at 1. rewrite alloc_run.
      destruct (os_alloc os (set_stdin input w)); cbn [negb].
      * eapply stays_later; [|now apply IH].
        rewrite count_alloc_reading. now apply (comes_after_reading []).
      * apply alloc_failure_stays.
Qed.

Lemma lsh_read_line_stays : forall w, stays_in_session w (lsh_read_line os w).
Proof.
  intros w. unfold lsh_read_line. unfold bind at 1. rewrite alloc_run.
  destruct (os_alloc os w); cbn [negb].
  - eapply stays_later; [|now apply read_chars_stays].
    rewrite count_alloc_reading. now apply (comes_after_reading []).
  - apply alloc_failure_stays.
Qed.

Lemma split_tokens_stays : forall fuel token acc pos buf w,
  stays_in_session w (split_tokens os fuel token acc pos buf w).
Proof.
  induction fuel as [|fuel IH]; intros [[tok saved]|] acc pos buf w;
    cbn [split_tokens]; try exact I; try (simpl; apply comes_after_refl).
  destruct (pos + 1 >=? buf); [|apply IH].
  destruct (buf + LSH_TOK_BUFSIZE >? INT_MAX); [exact I|].
  unfold bind at 1. rewrite alloc_run.
  destruct (os_alloc os w); cbn [negb].
  - eapply stays_later; [|apply IH].
    rewrite count_alloc_reading. now apply (comes_after_reading []).
  - apply alloc_failure_stays.
Qed.

Lemma lsh_split_line_stays : forall line w,
  stays_in_session w (lsh_split_line os line w).
Proof.
  intros line w. unfold lsh_split_line. unfold bind at 1. rewrite alloc_run.
  destruct (os_alloc os w); cbn [negb].
  - eapply stays_later; [|apply split_tokens_stays].
    rewrite count_alloc_reading. now apply (comes_after_reading []).
  - apply alloc_failure_stays.
Qed.

Lemma lsh_execute_stays : forall args w,
  stays_in_session w (lsh_execute os args w).
Proof.
  intros [|arg0 rest] w; [apply comes_after_refl|].
  rewrite lsh_execute_unfold.
  destruct (strcmp arg0 (lit "cd") =? 0).
  { destruct (lsh_cd_inv arg0 rest w) as (w' & R & _).
    rewrite R. simpl.
    destruct (lsh_cd_fields arg0 rest w 1 w' R)
      as (H1 & H2 & H3 & _ & _ & H6).
    repeat split; auto.
    - exists []. now rewrite H1.
    - exists []. now rewrite H2, app_nil_r. }
  destruct (strcmp arg0 (lit "help") =? 0).
  { rewrite lsh_help_run. apply comes_after_stdout. }
  destruct (strcmp arg0 (lit "exit") =? 0).
  { apply comes_after_refl. }
  destruct (lsh_launch_cases arg0 rest w)
    as [(e & _ & R)|[(p & stops & s & later & _ & _ & _ & _ & R)
                    |(p & w1 & _ & _ & R)]];
    rewrite R; simpl; [| |exact I].
  - repeat split; simpl; eauto.
    + now exists [].
    + exists []. now rewrite app_nil_r.
  - destruct (after_child_fields arg0 rest (count_fork w))
      as (H1 & H2 & _ & H4 & _ & _ & H7).
    repeat split; auto.
    + exists []. now rewrite H1.
    + exists []. now rewrite H2, app_nil_r.
Qed.

Lemma lsh_loop_stays : forall fuel w, stays_in_session w (lsh_loop os fuel w).
Proof.
  induction fuel as [|fuel IH]; intros w; [exact I|].
  rewrite lsh_loop_step.
  eapply stays_later; [apply comes_after_stdout|].
  apply stays_bind; [apply lsh_read_line_stays|]. intros line w1 _.
  apply stays_bind; [apply lsh_split_line_stays|]. intros args w2 _.
  apply stays_bind; [apply lsh_execute_stays|]. intros status w3 _.
  destruct (negb (status =? 0)); [apply IH|apply comes_after_refl].
Qed.

(** X13.  However a session ends, by [exit] or at the end of the input or on
    a failed allocation, it leaves no child behind that it has forked, it
    has read its input from the front and what is left is still to read,
    and what it has written was added after what stdout and stderr held. *)
Theorem session_leaves_no_child : forall (fuel : nat) (w w' : World),
  (exists r, main os fuel w = Returned r w') \/
  (exists code, main os fuel w = Exited code w') ->
  w_children w' = w_children w /\
  (exists read, w_stdin w = read ++ w_stdin w') /\
  (exists out, w_stdout w' = w_stdout w ++ out) /\
  (exists err, w_stderr w' = w_stderr w ++ err).
Proof.
  intros fuel w w' H.
  pose proof (lsh_loop_stays fuel w) as Hs.
  assert (Hc : comes_after w w').
  { unfold main, bind in H.
    destruct (lsh_loop os fuel w) as [a w1|c w1| | | |];
      destruct H as [[r H]|[code H]]; try discriminate;
      inversion H; subst; exact Hs. }
  destruct Hc as (H1 & H2 & H3 & H4). auto.
Qed.

End Properties.

(** ** The theorems on the sample environment *)

Ltac not_listed H :=
  vm_compute in H;
  repeat (destruct H as [H|H]; [discriminate H|]);
  exact H.

Lemma os_has_memory : forall p w0, os_alloc (sample_os true p) w0 = true.
Proof. reflexivity. Qed.

Lemma lsh_cd_failures_are_reported_witness :
  (nth_error [lit "cd"] 1 = None /\
   lsh_cd (sample_os true true) [lit "cd"] (sample_world [])
     = Returned 1 (put_stderr cd_usage (sample_world [])) /\
   w_stderr (put_stderr cd_usage (sample_world []))
     = lit "lsh: expected argument to " ++ [dquote] ++ lit "cd"
         ++ [dquote; newline] /\
   w_cwd (put_stderr cd_usage (sample_world [])) = lit "/home") /\
  (nth_error [lit "cd"; lit "/nope"] 1 = Some (lit "/nope") /\
   os_chdir (sample_os true true) (sample_world []) (lit "/nope") = inl ENOENT /\
   lsh_cd (sample_os true true) [lit "cd"; lit "/nope"] (sample_world [])
     = Returned 1
         (put_stderr (lsh_perror_text (sample_os true true) ENOENT)
            (set_errno ENOENT (sample_world []))) /\
   w_stderr (put_stderr (lsh_perror_text (sample_os true true) ENOENT)
               (set_errno ENOENT (sample_world [])))
     = lit "lsh: No such file or directory" ++ [newline] /\
   w_cwd (put_stderr (lsh_perror_text (sample_os true true) ENOENT)
            (set_errno ENOENT (sample_world [])))
     = lit "/home") /\
  (nth_error [lit "cd"; lit "/tmp"] 1 = Some (lit "/tmp") /\
   os_chdir (sample_os true true) (sample_world []) (lit "/tmp")
     = inr (lit "/tmp") /\
   lsh_cd (sample_os true true) [lit "cd"; lit "/tmp"] (sample_world [])
     = Returned 1 (set_cwd (lit "/tmp") (sample_world [])) /\
   w_cwd (set_cwd (lit "/tmp") (sample_world [])) = lit "/tmp" /\
   w_stderr (set_cwd (lit "/tmp") (sample_world [])) = []).
Proof.
  split; [|split].
  - split; [reflexivity|].
    destruct (lsh_cd_failures_are_reported (sample_os true true) (lit "cd") []
                (sample_world [])) as (H & _).
    destruct (H eq_refl) as (R & Hcwd & _ & Herr).
    split; [exact R|]. split; [exact Herr|exact Hcwd].
  - split; [reflexivity|]. split; [reflexivity|].
    destruct (lsh_cd_failures_are_reported (sample_os true true)
                (lit "cd") [lit "/nope"] (sample_world [])) as (_ & H & _).
    destruct (H (lit "/nope") ENOENT eq_refl eq_refl)
      as (R & Hcwd & _ & Herr).
    split; [exact R|]. split; [exact Herr|exact Hcwd].
  - split; [reflexivity|]. split; [reflexivity|].
    destruct (lsh_cd_failures_are_reported (sample_os true true)
                (lit "cd") [lit "/tmp"] (sample_world [])) as (_ & _ & H & _).
    destruct (H (lit "/tmp") (lit "/tmp") eq_refl eq_refl)
      as (R & Hcwd & _ & Herr).
    split; [exact R|]. split; [exact Hcwd|exact Herr].
Defined.

Lemma lsh_help_prints_the_builtins_witness :
  lsh_help [lit "help"; lit "me"] (sample_world [])
    = Returned 1
        (mkWorld [] (lit "Stephen Brennan's LSH" ++ newline
                     :: lit "Type program names and arguments, and hit enter."
                     ++ newline
                     :: lit "The following are built in:" ++ newline
                     :: lit "  cd" ++ newline
                     :: lit "  help" ++ newline
                     :: lit "  exit" ++ newline
                     :: lit "Use the man command for information on other programs."
                     ++ [newline])
           [] (lit "/home") 0 0 0 []) /\
  exists text w',
    lsh_help [lit "help"; lit "me"] (sample_world []) = Returned 1 w' /\
    w_stdout w' = w_stdout (sample_world []) ++ text /\
    text <> [].
Proof.
  destruct (lsh_help_prints_the_builtins [lit "help"; lit "me"]
              (sample_world [])) as (R & _ & _ & Hout & _ & _ & Hsome).
  split; [|exact Hsome].
  rewrite R. reflexivity.
Defined.

Lemma lsh_execute_dispatches_witness :
  lsh_execute (sample_os true true) [] (sample_world [])
    = Returned 1 (sample_world []) /\
  (nth_error builtin_str 1 = Some (lit "help") /\
   nth_error (builtin_func (sample_os true true)) 1 = Some lsh_help /\
   c_str (lit "help") = lit "help" /\
   lsh_execute (sample_os true true) [lit "help"; lit "me"] (sample_world [])
     = lsh_help [lit "help"; lit "me"] (sample_world [])) /\
  (~ In (c_str (lit "ls")) builtin_str /\
   lsh_execute (sample_os true true) [lit "ls"; lit "-la"] (sample_world [])
     = lsh_launch (sample_os true true) [lit "ls"; lit "-la"] (sample_world [])).
Proof.
  split; [|split].
  - destruct (lsh_execute_dispatches (sample_os true true) [] (sample_world []))
      as (H & _).
    apply H. reflexivity.
  - split; [reflexivity|]. split; [reflexivity|]. split; [reflexivity|].
    destruct (lsh_execute_dispatches (sample_os true true)
                [lit "help"; lit "me"] (sample_world [])) as (_ & H & _).
    apply (H (lit "help") [lit "me"] 1%nat (lit "help") lsh_help); reflexivity.
  - assert (Hn : ~ In (c_str (lit "ls")) builtin_str)
      by (intros H; not_listed H).
    split; [exact Hn|].
    destruct (lsh_execute_dispatches (sample_os true true)
                [lit "ls"; lit "-la"] (sample_world [])) as (_ & _ & H).
    apply (H (lit "ls") [lit "-la"]); [reflexivity|exact Hn].
Defined.

Lemma wait_ends_only_on_exit_or_signal_witness :
  (0 < 42 /\
   find_child 42 (w_children (waiting_world [W_STOPCODE SIGSTOP; W_EXITCODE 3 0]))
     = Some [W_STOPCODE SIGSTOP; W_EXITCODE 3 0] /\
   lsh_launch_from (sample_os true true) 42 [lit "ls"]
     (waiting_world [W_STOPCODE SIGSTOP; W_EXITCODE 3 0])
     = Returned 1 (mkWorld [] [] [] (lit "/home") 0 0 1 []) /\
   wait_loop 42 [W_STOPCODE SIGSTOP; W_EXITCODE 3 0]
     (waiting_world [W_STOPCODE SIGSTOP; W_EXITCODE 3 0])
     = Returned (W_EXITCODE 3 0) (mkWorld [] [] [] (lit "/home") 0 0 1 []) /\
   WEXITSTATUS (W_EXITCODE 3 0) = 3) /\
  (Forall (fun r => WIFSTOPPED r = true) [W_STOPCODE SIGSTOP; W_STOPCODE SIGSTOP] /\
   wait_loop 42 [W_STOPCODE SIGSTOP; W_STOPCODE SIGSTOP]
     (waiting_world [W_STOPCODE SIGSTOP; W_STOPCODE SIGSTOP])
     = Blocked (waiting_world [])).
Proof.
  split.
  - destruct (wait_ends_only_on_exit_or_signal (sample_os true true) 42
                [lit "ls"]
                [W_STOPCODE SIGSTOP; W_EXITCODE 3 0]
                (waiting_world [W_STOPCODE SIGSTOP; W_EXITCODE 3 0]))
      as (H1 & H2 & H3 & _ & _ & _ & H6); [lia|reflexivity|].
    split; [lia|]. split; [reflexivity|].
    assert (Hw : wait_loop 42 [W_STOPCODE SIGSTOP; W_EXITCODE 3 0]
                   (waiting_world [W_STOPCODE SIGSTOP; W_EXITCODE 3 0])
                 = Returned (W_EXITCODE 3 0)
                     (mkWorld [] [] [] (lit "/home") 0 0 1 [])).
    { rewrite (H3 [W_STOPCODE SIGSTOP] (W_EXITCODE 3 0) []).
      - reflexivity.
      - reflexivity.
      - repeat constructor.
      - left. reflexivity. }
    split; [|split].
    + rewrite H1. unfold bind. rewrite Hw. reflexivity.
    + exact Hw.
    + apply H6. lia.
  - assert (F : Forall (fun r => WIFSTOPPED r = true)
                  [W_STOPCODE SIGSTOP; W_STOPCODE SIGSTOP])
      by (repeat constructor).
    split; [exact F|].
    destruct (wait_ends_only_on_exit_or_signal (sample_os true true) 42
                [lit "ls"]
                [W_STOPCODE SIGSTOP; W_STOPCODE SIGSTOP]
                (waiting_world [W_STOPCODE SIGSTOP; W_STOPCODE SIGSTOP]))
      as (_ & _ & _ & H4 & _); [lia|reflexivity|].
    rewrite (H4 F). reflexivity.
Defined.


Lemma lsh_split_line_splits_on_delimiters_witness :
  (lsh_split_line (sample_os true true) (lit "  ls   -la  ") (sample_world [])
     = Returned [lit "ls"; lit "-la"] (count_alloc (sample_world [])) /\
   [lit "ls"; lit "-la"] = split_on_delims (c_str (lit "  ls   -la  ")) /\
   split_of (c_str (lit "  ls   -la  ")) [lit "ls"; lit "-la"] /\
   Forall (fun tok => tok <> [] /\ Forall (fun c => is_delim c = false) tok)
     [lit "ls"; lit "-la"]) /\
  (Forall (fun c => is_delim c = true) (c_str [" "%char; "009"%char; "007"%char]) /\
   lsh_split_line (sample_os true true) [" "%char; "009"%char; "007"%char]
     (sample_world [])
     = Returned [] (count_alloc (sample_world [])) /\
   forall toks w',
     lsh_split_line (sample_os true true) [" "%char; "009"%char; "007"%char]
       (sample_world []) = Returned toks w' ->
     toks = []) /\
  ((forall w0, os_alloc (sample_os true true) w0 = true) /\
   Z.of_nat (List.length (lit "cd /tmp")) + LSH_TOK_BUFSIZE <= INT_MAX /\
   exists k,
     lsh_split_line (sample_os true true) (lit "cd /tmp") (sample_world [])
       = Returned [lit "cd"; lit "/tmp"] (after_reading [] k (sample_world []))) /\
  (is_delim "013"%char = true /\ is_delim "010"%char = true /\
   is_delim "009"%char = true /\ is_delim "007"%char = true /\
   is_delim " "%char = true /\ is_delim "a"%char = false /\
   is_delim "011"%char = false) /\
  (os_alloc (sample_os true true) (sample_world []) = true /\
   lsh_split_line (sample_os true true)
     ["a"%char; "013"%char; "b"%char; "010"%char; "c"%char; "009"%char;
      "d"%char; "007"%char; "e"%char; " "%char; "f"%char] (sample_world [])
     = Returned [lit "a"; lit "b"; lit "c"; lit "d"; lit "e"; lit "f"]
         (count_alloc (sample_world []))).
Proof.
  destruct (lsh_split_line_splits_on_delimiters (sample_os true true))
    as (Hline & Hls & Hdelims & Hfive).
  split; [|split; [|split; [|split]]].
  - assert (R : lsh_split_line (sample_os true true) (lit "  ls   -la  ")
                  (sample_world [])
                = Returned [lit "ls"; lit "-la"] (count_alloc (sample_world [])))
      by (apply Hls; reflexivity).
    split; [exact R|].
    destruct (Hline (lit "  ls   -la  ") (sample_world [])) as [H _].
    destruct (H _ _ R) as (Hc & Hs & _ & Ht & _).
    split; [exact Hc|]. split; [exact Hs|exact Ht].
  - assert (F : Forall (fun c => is_delim c = true)
                  (c_str [" "%char; "009"%char; "007"%char]))
      by (repeat constructor).
    split; [exact F|].
    destruct (Hline [" "%char; "009"%char; "007"%char] (sample_world []))
      as [H _].
    split; [reflexivity|]. intros toks w' R.
    destruct (H toks w' R) as (_ & _ & _ & _ & He & _).
    exact (He F).
  - split; [apply os_has_memory|].
    assert (L : Z.of_nat (List.length (lit "cd /tmp")) + LSH_TOK_BUFSIZE
                <= INT_MAX) by (vm_compute; discriminate).
    split; [exact L|].
    destruct (Hline (lit "cd /tmp") (sample_world [])) as [_ H].
    destruct (H (os_has_memory true) L) as [k Hk].
    exists k. exact Hk.
  - assert (Hno : forall c, is_delim c = true -> c <> "a"%char /\ c <> "011"%char).
    { intros c Hc. apply Hdelims in Hc.
      destruct Hc as [->|[->|[->|[->| ->]]]]; split; discriminate. }
    split; [apply Hdelims; auto 10|]. split; [apply Hdelims; auto 10|].
    split; [apply Hdelims; auto 10|]. split; [apply Hdelims; auto 10|].
    split; [apply Hdelims; auto 10|]. split.
    + destruct (is_delim "a"%char) eqn:E; [|reflexivity].
      destruct (Hno _ E) as [C _]. now contradiction C.
    + destruct (is_delim "011"%char) eqn:E; [|reflexivity].
      destruct (Hno _ E) as [_ C]. now contradiction C.
  - split; [reflexivity|]. apply Hfive. reflexivity.
Defined.

Lemma builtin_tables_are_aligned_witness :
  ((2 < lsh_num_builtins)%nat /\
   nth_error builtin_str 2 = Some (lit "exit") /\
   nth_error (builtin_func (sample_os true true)) 2 = Some lsh_exit) /\
  (nth_error builtin_str 0 = Some (lit "cd") /\
   nth_error (builtin_func (sample_os true true)) 0
     = Some (lsh_cd (sample_os true true)) /\
   c_str (lit "cd") = lit "cd" /\
   lsh_execute (sample_os true true) [lit "cd"; lit "/tmp"] (sample_world [])
     = lsh_cd (sample_os true true) [lit "cd"; lit "/tmp"] (sample_world [])).
Proof.
  destruct (builtin_tables_are_aligned (sample_os true true))
    as (_ & _ & Hnum & Hin & _ & _ & Hsame).
  split.
  - assert (Hi : (2 < lsh_num_builtins)%nat) by (rewrite Hnum; lia).
    split; [exact Hi|].
    destruct (Hin 2%nat Hi) as (name & handler & Hn & Hh).
    split; reflexivity.
  - split; [reflexivity|]. split; [reflexivity|]. split; [reflexivity|].
    apply (Hsame 0%nat (lit "cd") (lsh_cd (sample_os true true)));
      reflexivity.
Defined.

Lemma interpreter_exit_status_witness :
  (* the input ends *)
  (w_stdin (sample_world []) = [] /\
   os_alloc (sample_os true true) (put_stdout (lit "> ") (sample_world [])) = true /\
   main (sample_os true true) 1 (sample_world [])
     = Exited EXIT_SUCCESS (mkWorld [] (lit "> ") [] (lit "/home") 0 1 0 [])) /\
  (* the input ends in the middle of a session and of a line *)
  ((forall w0, os_alloc (sample_os true true) w0 = true) /\
   ~ In newline (w_stdin (mkWorld (lit "ls -") (lit "> ") [] (lit "/tmp") 0 4 1 [])) /\
   Z.of_nat (List.length (w_stdin (mkWorld (lit "ls -") (lit "> ") []
                                     (lit "/tmp") 0 4 1 [])))
     + LSH_RL_BUFSIZE <= INT_MAX /\
   exists k,
     main (sample_os true true) 1
       (mkWorld (lit "ls -") (lit "> ") [] (lit "/tmp") 0 4 1 [])
       = Exited EXIT_SUCCESS
           (mkWorld [] (lit "> > ") [] (lit "/tmp") 0 (k + 4) 1 [])) /\
  (* no memory *)
  (os_alloc (sample_os false true) (put_stdout (lit "> ") (sample_world [])) = false /\
   main (sample_os false true) 1 (sample_world [])
     = Exited EXIT_FAILURE
         (mkWorld [] (lit "> ") alloc_error (lit "/home") 0 1 0 []) /\
   exists w0, os_alloc (sample_os false true) w0 = false) /\
  (* the exit builtin *)
  (main (sample_os true true) 1 (sample_world (lit "exit" ++ [newline]))
     = Returned 0 (mkWorld [] (lit "> ") [] (lit "/home") 0 2 0 []) /\
   0 = EXIT_SUCCESS).
Proof.
  split; [|split; [|split]].
  - split; [reflexivity|]. split; [reflexivity|].
    destruct (interpreter_exit_status (sample_os true true) 0 (sample_world []))
      as (_ & _ & _ & H & _).
    rewrite H; reflexivity.
  - split; [apply os_has_memory|].
    assert (Hnl : ~ In newline
                    (w_stdin (mkWorld (lit "ls -") (lit "> ") [] (lit "/tmp")
                                0 4 1 [])))
      by (intros H; not_listed H).
    split; [exact Hnl|].
    assert (L : Z.of_nat (List.length
                  (w_stdin (mkWorld (lit "ls -") (lit "> ") [] (lit "/tmp")
                              0 4 1 []))) + LSH_RL_BUFSIZE <= INT_MAX)
      by (vm_compute; discriminate).
    split; [exact L|].
    destruct (interpreter_exit_status (sample_os true true) 0
                (mkWorld (lit "ls -") (lit "> ") [] (lit "/tmp") 0 4 1 []))
      as (_ & _ & _ & _ & H & _).
    destruct (H (os_has_memory true) Hnl L) as [k Hk].
    exists k. exact Hk.
  - split; [reflexivity|].
    destruct (interpreter_exit_status (sample_os false true) 0 (sample_world []))
      as (_ & _ & _ & _ & _ & H & _).
    split; [rewrite H; reflexivity|].
    destruct (interpreter_exit_status (sample_os false true) 1 (sample_world []))
      as (_ & H2 & _).
    destruct (H2 _ _ (H eq_refl)) as [[E _]|(_ & Hw & _)];
      [discriminate E|exact Hw].
  - assert (R : main (sample_os true true) 1
                  (sample_world (lit "exit" ++ [newline]))
                = Returned 0 (mkWorld [] (lit "> ") [] (lit "/home") 0 2 0 []))
      by reflexivity.
    split; [exact R|].
    destruct (interpreter_exit_status (sample_os true true) 1
                (sample_world (lit "exit" ++ [newline]))) as (H & _).
    exact (H _ _ R).
Defined.

Lemma exit_builtin_stops_the_loop_witness :
  (c_str (lit "exit") = lit "exit" /\
   lsh_execute (sample_os true true) [lit "exit"; lit "now"] (sample_world [])
     = Returned 0 (sample_world [])) /\
  ((forall w0, os_alloc (sample_os true true) w0 = true) /\
   w_stdin (mkWorld (lit " exit  now" ++ newline :: lit "ls") (lit "> ") []
              (lit "/tmp") 0 4 1 [])
     = lit " exit  now" ++ newline :: lit "ls" /\
   ~ In newline (lit " exit  now") /\
   Z.of_nat (List.length (lit " exit  now")) + LSH_RL_BUFSIZE <= INT_MAX /\
   split_of (c_str (lit " exit  now")) [lit "exit"; lit "now"] /\
   exists k,
     main (sample_os true true) 1
       (mkWorld (lit " exit  now" ++ newline :: lit "ls") (lit "> ") []
          (lit "/tmp") 0 4 1 [])
       = Returned EXIT_SUCCESS
           (mkWorld (lit "ls") (lit "> > ") [] (lit "/tmp") 0 (k + 4) 1 [])).
Proof.
  destruct (exit_builtin_stops_the_loop (sample_os true true))
    as (_ & Hexec & _ & Hmain).
  split.
  - split; [reflexivity|]. apply Hexec. reflexivity.
  - split; [apply os_has_memory|]. split; [reflexivity|].
    assert (Hnl : ~ In newline (lit " exit  now")) by (intros H; not_listed H).
    split; [exact Hnl|].
    assert (L : Z.of_nat (List.length (lit " exit  now")) + LSH_RL_BUFSIZE
                <= INT_MAX) by (vm_compute; discriminate).
    split; [exact L|].
    assert (Hs : split_of (c_str (lit " exit  now")) [lit "exit"; lit "now"]).
    { apply (split_token [" "%char] (lit "exit") (lit "  now") [lit "now"]).
      - repeat constructor.
      - discriminate.
      - repeat constructor.
      - right. exists " "%char, (lit " now"). split; reflexivity.
      - apply (split_token (lit "  ") (lit "now") [] []).
        + repeat constructor.
        + discriminate.
        + repeat constructor.
        + now left.
        + apply split_done. constructor. }
    split; [exact Hs|].
    destruct (Hmain 0%nat (lit " exit  now") (lit "ls") [lit "now"]
                (mkWorld (lit " exit  now" ++ newline :: lit "ls") (lit "> ") []
                   (lit "/tmp") 0 4 1 [])
                (os_has_memory true) eq_refl Hnl L Hs) as [k Hk].
    exists k. exact Hk.
Defined.

(** ** More theorems on the sample environment *)

Lemma lsh_read_line_returns_first_line_witness :
  lsh_read_line (sample_os true true)
    (sample_world (lit "ls -la" ++ newline :: lit "exit"))
    = Returned (lit "ls -la") (mkWorld (lit "exit") [] [] (lit "/home") 0 1 0 []) /\
  w_stdin (sample_world (lit "ls -la" ++ newline :: lit "exit"))
    = lit "ls -la" ++ newline
        :: w_stdin (mkWorld (lit "exit") [] [] (lit "/home") 0 1 0 []) /\
  ~ In newline (lit "ls -la").
Proof.
  assert (R : lsh_read_line (sample_os true true)
                (sample_world (lit "ls -la" ++ newline :: lit "exit"))
              = Returned (lit "ls -la")
                  (mkWorld (lit "exit") [] [] (lit "/home") 0 1 0 []))
    by reflexivity.
  split; [exact R|].
  destruct (lsh_read_line_returns_first_line (sample_os true true) _ _ _ R)
    as (H1 & H2 & _).
  split; [exact H1|exact H2].
Defined.

Lemma lsh_read_line_drops_unfinished_line_witness :
  lsh_read_line (sample_os true true) (sample_world (lit "ls -"))
    = Exited EXIT_SUCCESS (mkWorld [] [] [] (lit "/home") 0 1 0 []) /\
  ~ In newline (w_stdin (sample_world (lit "ls -"))) /\
  exists k,
    mkWorld [] [] [] (lit "/home") 0 1 0 []
      = after_reading [] (S k) (sample_world (lit "ls -")).
Proof.
  assert (R : lsh_read_line (sample_os true true) (sample_world (lit "ls -"))
              = Exited EXIT_SUCCESS (mkWorld [] [] [] (lit "/home") 0 1 0 []))
    by reflexivity.
  split; [exact R|].
  exact (lsh_read_line_drops_unfinished_line (sample_os true true) _ _ R).
Defined.

Lemma lsh_read_line_allocates_by_blocks_witness :
  (forall w0, os_alloc (sample_os true true) w0 = true) /\
  ~ In newline (repeat "x"%char 1024) /\
  Z.of_nat (List.length (repeat "x"%char 1024)) + LSH_RL_BUFSIZE <= INT_MAX /\
  lsh_read_line (sample_os true true)
    (sample_world (repeat "x"%char 1024 ++ newline :: lit "exit"))
    = Returned (repeat "x"%char 1024)
        (after_reading (lit "exit") 2
           (sample_world (repeat "x"%char 1024 ++ newline :: lit "exit"))).
Proof.
  assert (Hnl : ~ In newline (repeat "x"%char 1024)).
  { intros H. apply repeat_spec in H. discriminate H. }
  assert (L : Z.of_nat (List.length (repeat "x"%char 1024)) + LSH_RL_BUFSIZE
              <= INT_MAX) by (vm_compute; discriminate).
  split; [apply os_has_memory|]. split; [exact Hnl|]. split; [exact L|].
  rewrite (lsh_read_line_allocates_by_blocks (sample_os true true)
             (repeat "x"%char 1024) (lit "exit")
             (sample_world (repeat "x"%char 1024 ++ newline :: lit "exit"))
             (os_has_memory true) eq_refl Hnl L).
  rewrite repeat_length. reflexivity.
Defined.

Lemma lsh_split_line_allocates_by_blocks_witness :
  lsh_split_line (sample_os true true) (List.concat (repeat (lit "a ") 64))
    (sample_world [])
    = Returned (repeat (lit "a") 64) (after_reading [] 2 (sample_world [])) /\
  after_reading [] 2 (sample_world [])
    = after_reading (w_stdin (sample_world []))
        (S (List.length (repeat (lit "a") 64) / 64)) (sample_world []).
Proof.
  assert (R : lsh_split_line (sample_os true true)
                (List.concat (repeat (lit "a ") 64)) (sample_world [])
              = Returned (repeat (lit "a") 64)
                  (after_reading [] 2 (sample_world [])))
    by (vm_compute; reflexivity).
  split; [exact R|].
  exact (lsh_split_line_allocates_by_blocks (sample_os true true) _ _ _ _ R).
Defined.

Lemma lsh_split_line_stops_at_nul_witness :
  lsh_split_line (sample_os true true) (lit "ls " ++ NUL :: lit "-la")
    (sample_world [])
    = Returned [lit "ls"] (count_alloc (sample_world [])) /\
  [lit "ls"] = split_on_delims (c_str (lit "ls ")) /\
  Forall is_token [lit "ls"] /\
  (forall w0, os_alloc (sample_os true true) w0 = true) /\
  Z.of_nat (List.length (lit "ls " ++ NUL :: lit "-la")) + LSH_TOK_BUFSIZE
    <= INT_MAX /\
  exists w',
    lsh_split_line (sample_os true true) (lit "ls " ++ NUL :: lit "-la")
      (sample_world [])
      = Returned (split_on_delims (c_str (lit "ls "))) w'.
Proof.
  destruct (lsh_split_line_stops_at_nul (sample_os true true) (lit "ls ")
              (lit "-la") (sample_world [])) as [Hs Ht].
  assert (R : lsh_split_line (sample_os true true)
                (lit "ls " ++ NUL :: lit "-la") (sample_world [])
              = Returned [lit "ls"] (count_alloc (sample_world [])))
    by reflexivity.
  assert (L : Z.of_nat (List.length (lit "ls " ++ NUL :: lit "-la"))
              + LSH_TOK_BUFSIZE <= INT_MAX) by (vm_compute; discriminate).
  split; [exact R|].
  destruct (Hs _ _ R) as [H1 H2].
  split; [exact H1|]. split; [exact H2|].
  split; [apply os_has_memory|]. split; [exact L|].
  exact (Ht (os_has_memory true) L).
Defined.

Lemma lsh_split_line_at_a_delimiter_witness :
  is_delim "009"%char = true /\
  Forall (fun c => is_nul c = false) (lit "cd") /\
  lsh_split_line (sample_os true true) (lit "cd") (sample_world [])
    = Returned [lit "cd"] (count_alloc (sample_world [])) /\
  lsh_split_line (sample_os true true) (lit " /tmp x") (sample_world [])
    = Returned [lit "/tmp"; lit "x"] (count_alloc (sample_world [])) /\
  lsh_split_line (sample_os true true) (lit "cd" ++ "009"%char :: lit " /tmp x")
    (sample_world [])
    = Returned [lit "cd"; lit "/tmp"; lit "x"] (count_alloc (sample_world [])) /\
  [lit "cd"; lit "/tmp"; lit "x"] = [lit "cd"] ++ [lit "/tmp"; lit "x"].
Proof.
  assert (Ha : Forall (fun c => is_nul c = false) (lit "cd"))
    by (repeat constructor).
  split; [reflexivity|]. split; [exact Ha|].
  split; [reflexivity|]. split; [reflexivity|]. split; [reflexivity|].
  exact (lsh_split_line_at_a_delimiter (sample_os true true)
           (lit "cd") (lit " /tmp x") "009"%char
           (sample_world []) (sample_world []) (sample_world [])
           [lit "cd"] [lit "/tmp"; lit "x"] [lit "cd"; lit "/tmp"; lit "x"]
           (count_alloc (sample_world [])) (count_alloc (sample_world []))
           (count_alloc (sample_world []))
           eq_refl Ha eq_refl eq_refl eq_refl).
Defined.

Lemma lsh_split_line_round_trip_witness :
  (Forall is_token [lit "cd"; lit "/tmp"] /\
   lsh_split_line (sample_os true true) (unwords [lit "cd"; lit "/tmp"])
     (sample_world [])
     = Returned [lit "cd"; lit "/tmp"] (count_alloc (sample_world [])) /\
   forall toks' w',
     lsh_split_line (sample_os true true) (unwords [lit "cd"; lit "/tmp"])
       (sample_world []) = Returned toks' w' ->
     toks' = [lit "cd"; lit "/tmp"]) /\
  (lsh_split_line (sample_os true true) (lit "  ls   -la  ") (sample_world [])
     = Returned [lit "ls"; lit "-la"] (count_alloc (sample_world [])) /\
   unwords [lit "ls"; lit "-la"] = lit "ls -la" /\
   forall toks' w',
     lsh_split_line (sample_os true true) (unwords [lit "ls"; lit "-la"])
       (sample_world []) = Returned toks' w' ->
     toks' = [lit "ls"; lit "-la"]).
Proof.
  destruct (lsh_split_line_round_trip (sample_os true true)) as [H1 H2].
  split.
  - assert (Ht : Forall is_token [lit "cd"; lit "/tmp"]).
    { repeat constructor; discriminate. }
    split; [exact Ht|].
    split; [reflexivity|].
    intros toks' w' R. exact (H1 _ _ _ _ Ht R).
  - assert (R : lsh_split_line (sample_os true true) (lit "  ls   -la  ")
                  (sample_world [])
                = Returned [lit "ls"; lit "-la"]
                    (count_alloc (sample_world []))) by reflexivity.
    split; [exact R|]. split; [reflexivity|].
    intros toks' w' R'.
    exact (H2 _ _ (sample_world []) _ _ _ _ R R').
Defined.

Lemma lsh_launch_leaves_no_trace_witness :
  lsh_launch (sample_os true true) [lit "nope"] (sample_world (lit "exit"))
    = Returned 1
        (mkWorld (lit "exit") []
           (lit "lsh: No such file or directory" ++ [newline])
           (lit "/home") 0 0 1 []) /\
  w_children (mkWorld (lit "exit") []
                (lit "lsh: No such file or directory" ++ [newline])
                (lit "/home") 0 0 1 [])
    = w_children (sample_world (lit "exit")) /\
  w_nfork (mkWorld (lit "exit") []
             (lit "lsh: No such file or directory" ++ [newline])
             (lit "/home") 0 0 1 [])
    = S (w_nfork (sample_world (lit "exit"))).
Proof.
  assert (R : lsh_launch (sample_os true true) [lit "nope"]
                (sample_world (lit "exit"))
              = Returned 1
                  (mkWorld (lit "exit") []
                     (lit "lsh: No such file or directory" ++ [newline])
                     (lit "/home") 0 0 1 [])) by reflexivity.
  split; [exact R|].
  destruct (lsh_launch_leaves_no_trace (sample_os true true) _ _ _ _ _ R)
    as (H1 & H2 & _).
  split; [exact H1|exact H2].
Defined.

Lemma lsh_launch_blocks_on_a_child_that_stays_witness :
  ((exists p, os_fork stuck_os (sample_world []) = inr p) /\
   Forall waits_on
     (child_reports stuck_os (lit "cat") [] (count_fork (sample_world []))) /\
   exists w', lsh_launch stuck_os [lit "cat"] (sample_world []) = Blocked w') /\
  (lsh_launch (sample_os true true) [lit "sleep"] (sample_world [])
     = Returned 1 (count_fork (sample_world [])) /\
   ~ Forall waits_on
       (child_reports (sample_os true true) (lit "sleep") []
          (count_fork (sample_world [])))).
Proof.
  split.
  - assert (Hf : exists p, os_fork stuck_os (sample_world []) = inr p)
      by (now exists 42%positive).
    assert (F : Forall waits_on
                  (child_reports stuck_os (lit "cat") []
                     (count_fork (sample_world []))))
      by (repeat constructor).
    split; [exact Hf|]. split; [exact F|].
    apply (lsh_launch_blocks_on_a_child_that_stays stuck_os (lit "cat") []
             (sample_world [])).
    split; [exact Hf|exact F].
  - split; [reflexivity|].
    intros F.
    assert (B : exists w',
               lsh_launch (sample_os true true) [lit "sleep"] (sample_world [])
                 = Blocked w').
    { apply (lsh_launch_blocks_on_a_child_that_stays (sample_os true true)
               (lit "sleep") [] (sample_world [])).
      split; [now exists 42%positive|exact F]. }
    destruct B as [w' B]. discriminate B.
Defined.

Lemma lsh_execute_touches_little_witness :
  lsh_execute (sample_os true true) [lit "cd"; lit "/tmp"] (sample_world [])
    = Returned 1 (set_cwd (lit "/tmp") (sample_world [])) /\
  w_cwd (set_cwd (lit "/tmp") (sample_world [])) <> w_cwd (sample_world []) /\
  (exists arg0 rest,
      [lit "cd"; lit "/tmp"] = arg0 :: rest /\ c_str arg0 = lit "cd") /\
  w_stdin (set_cwd (lit "/tmp") (sample_world [])) = w_stdin (sample_world []).
Proof.
  assert (R : lsh_execute (sample_os true true) [lit "cd"; lit "/tmp"]
                (sample_world [])
              = Returned 1 (set_cwd (lit "/tmp") (sample_world [])))
    by reflexivity.
  assert (D : w_cwd (set_cwd (lit "/tmp") (sample_world []))
              <> w_cwd (sample_world [])) by discriminate.
  split; [exact R|]. split; [exact D|].
  destruct (lsh_execute_touches_little (sample_os true true) _ _ _ _ R)
    as (H1 & _ & _ & _ & H5 & _).
  split; [exact (H5 D)|exact H1].
Defined.

Lemma blank_line_only_prompts_again_witness :
  (forall w0, os_alloc (sample_os true true) w0 = true) /\
  w_stdin (sample_world (lit "  " ++ newline :: lit "exit" ++ [newline]))
    = lit "  " ++ newline :: lit "exit" ++ [newline] /\
  ~ In newline (lit "  ") /\
  Z.of_nat (List.length (lit "  ")) + LSH_RL_BUFSIZE <= INT_MAX /\
  Forall (fun c => is_delim c = true) (c_str (lit "  ")) /\
  exists k,
    lsh_loop (sample_os true true) 2
      (sample_world (lit "  " ++ newline :: lit "exit" ++ [newline]))
      = lsh_loop (sample_os true true) 1
          (after_reading (lit "exit" ++ [newline]) k
             (put_stdout (lit "> ")
                (sample_world (lit "  " ++ newline :: lit "exit" ++ [newline])))).
Proof.
  assert (Hnl : ~ In newline (lit "  ")) by (intros H; not_listed H).
  assert (L : Z.of_nat (List.length (lit "  ")) + LSH_RL_BUFSIZE <= INT_MAX)
    by (vm_compute; discriminate).
  assert (F : Forall (fun c => is_delim c = true) (c_str (lit "  ")))
    by (repeat constructor).
  split; [apply os_has_memory|]. split; [reflexivity|].
  split; [exact Hnl|]. split; [exact L|]. split; [exact F|].
  exact (blank_line_only_prompts_again (sample_os true true) 1 (lit "  ")
           (lit "exit" ++ [newline])
           (sample_world (lit "  " ++ newline :: lit "exit" ++ [newline]))
           (os_has_memory true) eq_refl Hnl L F).
Defined.

Lemma only_exit_ends_the_loop_witness :
  (forall w0, os_alloc (sample_os true true) w0 = true) /\
  ~ In newline (lit "nope -x") /\
  Z.of_nat (List.length (lit "nope -x")) + LSH_RL_BUFSIZE <= INT_MAX /\
  split_of (c_str (lit "nope -x")) [lit "nope"; lit "-x"] /\
  c_str (lit "nope") <> lit "exit" /\
  exists k,
    (exists w',
        lsh_execute (sample_os true true) [lit "nope"; lit "-x"]
          (after_reading (lit "help") k
             (put_stdout (lit "> ")
                (sample_world (lit "nope -x" ++ newline :: lit "help"))))
          = Blocked w' /\
        lsh_loop (sample_os true true) 1
          (sample_world (lit "nope -x" ++ newline :: lit "help")) = Blocked w') \/
    (exists w3,
        lsh_execute (sample_os true true) [lit "nope"; lit "-x"]
          (after_reading (lit "help") k
             (put_stdout (lit "> ")
                (sample_world (lit "nope -x" ++ newline :: lit "help"))))
          = Returned 1 w3 /\
        w_stdin w3 = lit "help" /\
        lsh_loop (sample_os true true) 1
          (sample_world (lit "nope -x" ++ newline :: lit "help"))
          = lsh_loop (sample_os true true) 0 w3).
Proof.
  assert (Hnl : ~ In newline (lit "nope -x")) by (intros H; not_listed H).
  assert (L : Z.of_nat (List.length (lit "nope -x")) + LSH_RL_BUFSIZE
              <= INT_MAX) by (vm_compute; discriminate).
  assert (Hs : split_of (c_str (lit "nope -x")) [lit "nope"; lit "-x"])
    by exact (split_on_delims_splits (c_str (lit "nope -x"))).
  assert (Hne : c_str (lit "nope") <> lit "exit") by discriminate.
  split; [apply os_has_memory|]. split; [exact Hnl|]. split; [exact L|].
  split; [exact Hs|]. split; [exact Hne|].
  exact (only_exit_ends_the_loop (sample_os true true) 0 (lit "nope -x")
           (lit "help") (lit "nope") [lit "-x"]
           (sample_world (lit "nope -x" ++ newline :: lit "help"))
           (os_has_memory true) eq_refl Hnl L Hs Hne).
Defined.

Lemma session_leaves_no_child_witness :
  main (sample_os true true) 3
    (sample_world (lit "false" ++ newline :: lit "nope" ++ newline
                     :: lit "exit" ++ [newline]))
    = Returned EXIT_SUCCESS
        (mkWorld [] (lit "> > > ")
           (lit "lsh: No such file or directory" ++ [newline])
           (lit "/home") 0 6 2 []) /\
  w_children (mkWorld [] (lit "> > > ")
                (lit "lsh: No such file or directory" ++ [newline])
                (lit "/home") 0 6 2 [])
    = w_children
        (sample_world (lit "false" ++ newline :: lit "nope" ++ newline
                         :: lit "exit" ++ [newline])).
Proof.
  assert (R : main (sample_os true true) 3
                (sample_world (lit "false" ++ newline :: lit "nope" ++ newline
                                 :: lit "exit" ++ [newline]))
              = Returned EXIT_SUCCESS
                  (mkWorld [] (lit "> > > ")
                     (lit "lsh: No such file or directory" ++ [newline])
                     (lit "/home") 0 6 2 [])) by reflexivity.
  split; [exact R|].
  destruct (session_leaves_no_child (sample_os true true) 3 _ _
              (or_introl (ex_intro _ EXIT_SUCCESS R))) as (H & _).
  exact H.
Defined.
